(** * Memory Safe Guard: the remote password client, embedded and verified

    Shallow embedding of [src/lib/supabase-service-fixed.ts]
    (class [SupabasePasswordService]) and of the configuration check of the
    module that builds the Supabase client ([validateConfig]).

    JavaScript strings are sequences of UTF-16 code units, objects are finite
    maps from property names to values, exceptions are an explicit completion
    type, and every awaited query of the Supabase client is an event recorded
    in a trace, answered by a remote that the development is parametric in.
    Calls to [logger] only write to the console and are left out. *)

From stdpp Require Import gmap strings list fin_maps pretty.
From Stdlib Require Import NArith.

Open Scope N_scope.
Open Scope nat_scope.

(** ** JavaScript strings and values *)

(** A JavaScript string: its UTF-16 code units, so that [length] is the
    source's [.length]. *)
Abbreviation jsstring := (list N).

(** An ASCII literal of the source as a sequence of code units. *)
Definition lit (s : string) : jsstring :=
  Ascii.N_of_ascii <$> String.list_ascii_of_string s.

(** ECMAScript [WhiteSpace] and [LineTerminator] code points, which are
    what [String.prototype.trim] removes. *)
Definition isWhiteSpace (c : N) : bool :=
  ((9 <=? c) && (c <=? 13))%N
  || (c =? 32)%N || (c =? 160)%N || (c =? 5760)%N
  || ((8192 <=? c) && (c <=? 8202))%N
  || (c =? 8232)%N || (c =? 8233)%N || (c =? 8239)%N
  || (c =? 8287)%N || (c =? 12288)%N || (c =? 65279)%N.

Fixpoint trimStart (s : jsstring) : jsstring :=
  match s with
  | [] => []
  | c :: s' => if isWhiteSpace c then trimStart s' else s
  end.

Definition trimEnd (s : jsstring) : jsstring :=
  reverse (trimStart (reverse s)).

(** [s.trim()] *)
Definition trim (s : jsstring) : jsstring := trimEnd (trimStart s).

(** A string that is empty or holds nothing but white space. *)
Definition blank (s : jsstring) : bool := forallb isWhiteSpace s.

(** Truthiness of a string: the empty string is the only falsy one. *)
Definition nonempty (s : jsstring) : bool :=
  match s with [] => false | _ => true end.

(** [s.replace(/[...]/g, r)] for a character class and a replacement [r]
    that holds no [$] pattern: every matching code unit becomes [r]. *)
Definition replaceClass (cls : N → bool) (r : jsstring) (s : jsstring) : jsstring :=
  flat_map (λ c, if cls c then r else [c]) s.

(** [s.substring(0, n)] *)
Definition substring0 (n : nat) (s : jsstring) : jsstring := take n s.

(** The values a property can hold in the objects of this service. *)
Inductive jsval :=
| JUndefined
| JNull
| JStr (s : jsstring).

Global Instance jsval_eq_dec : EqDecision jsval.
Proof. solve_decision. Defined.

Definition truthy (v : jsval) : bool :=
  match v with
  | JStr s => nonempty s
  | _ => false
  end.

(** The string held by a value, for the places where the source calls a
    string method after a truthiness or [null]/[undefined] guard. *)
Definition str_of (v : jsval) : jsstring :=
  match v with
  | JStr s => s
  | _ => []
  end.

(** A JavaScript object used as a record or a dictionary. *)
Abbreviation obj := (gmap string jsval).

(** [key in o] *)
Definition has (key : string) (o : obj) : bool :=
  bool_decide (is_Some (o !! key)).

(** [o[key]]: reading an absent property gives [undefined]. *)
Definition get (key : string) (o : obj) : jsval :=
  default JUndefined (o !! key).

(** ** Completions: a value or a thrown [Error] with its message *)

Inductive completion (A : Type) :=
| Normal (a : A)
| Throw (message : jsstring).
Arguments Normal {A} a.
Arguments Throw {A} message.

Definition cbind {A B} (c : completion A) (f : A → completion B) : completion B :=
  match c with
  | Normal a => f a
  | Throw e => Throw e
  end.

Fixpoint cmap {A B} (f : A → completion B) (l : list A) : completion (list B) :=
  match l with
  | [] => Normal []
  | x :: l' =>
      cbind (f x) (λ y, cbind (cmap f l') (λ ys, Normal (y :: ys)))
  end.

(** [`${error}`] for an [Error] object: [Error.prototype.toString]. *)
Definition error_toString (message : jsstring) : jsstring :=
  if nonempty message then lit "Error: " ++ message else lit "Error".

(** ** Search sanitization *)

Definition isWildcard (c : N) : bool := ((c =? 37) || (c =? 95))%N.   (* % _ *)
Definition isAngle (c : N) : bool := ((c =? 60) || (c =? 62))%N.      (* < > *)

(** The replacement string of the first [replace] of
    [sanitizeSearchQuery], as the source has it: a backslash followed by
    a fixed text. *)
Definition wildcardReplacement : jsstring :=
  lit "\04159cb3-9186-4414-9c28-af252a86395a".

(** [sanitizeSearchQuery]: trim, replace [%] and [_], remove [<] and [>],
    keep the first 100 code units. *)
Definition sanitizeSearchQuery (query : jsstring) : jsstring :=
  substring0 100
    (replaceClass isAngle []
       (replaceClass isWildcard wildcardReplacement
          (trim query))).


(** ** Application and wire shapes *)

(** [PasswordEntry] *)
Record PasswordEntry := {
  id : jsstring;
  service : jsstring;
  username : jsstring;
  password : jsstring;
  createdAt : jsstring;
  updatedAt : jsstring
}.

(** [CreatePasswordEntry]: a [PasswordEntry] without [id], [createdAt] and
    [updatedAt]. *)
Record CreatePasswordEntry := {
  c_service : jsstring;
  c_username : jsstring;
  c_password : jsstring
}.

(** The object a [CreatePasswordEntry] is at run time; it is also the row
    literal [{service: .., username: .., password: ..}] that [addPassword]
    and [batchAddPasswords] send. *)
Definition obj_of_create (c : CreatePasswordEntry) : obj :=
  <["service" := JStr (c_service c)]>
    (<["username" := JStr (c_username c)]>
       (<["password" := JStr (c_password c)]> ∅)).

(** [stats] of [getPasswordStats] *)
Record PasswordStats := { total : N; recentCount : N }.

(** ** The Supabase client as events *)

(** The queries the service awaits on [supabase.from('passwords')], indexed
    by the type of [data] in the response. *)
Inductive query : Type → Type :=
| QSelectAll : query (list obj)
    (* .select('*').order('updated_at', { ascending: false }) *)
| QSearch (orFilter : jsstring) : query (list obj)
    (* .select('*').or(orFilter).order('updated_at', { ascending: false }) *)
| QInsertSingle (rows : list obj) : query obj
    (* .insert(rows).select().single() *)
| QInsertMany (rows : list obj) : query (list obj)
    (* .insert(rows).select() *)
| QUpdateSingle (fields : obj) (rowId : jsstring) : query obj
    (* .update(fields).eq('id', rowId).select().single() *)
| QDelete (rowId : jsstring) : query unit
    (* .delete().eq('id', rowId) *)
| QCount : query unit
    (* .select('*', { count: 'exact', head: true }) *)
| QCountGte (column : string) (bound : jsstring) : query unit.
    (* .select('*', { count: 'exact', head: true }).gte(column, bound) *)

(** What awaiting a query resolves to: the library's
    [PostgrestResponseFailure] (an [error] with its message, [data] and
    [count] null) or [PostgrestResponseSuccess] ([error] null). *)
Inductive response (T : Type) :=
| Failure (message : jsstring)
| Success (data : option T) (count : option N).
Arguments Failure {T} message.
Arguments Success {T} data count.

(** A query that was issued, whatever its result type. *)
Definition call : Type := { T : Type & query T }.
Definition Call {T} (q : query T) : call := existT T q.

(** ** The service *)

Module SupabasePasswordService.

Section Service.

(** The state of everything outside the service: the hosted table and
    the clock. *)
Context {World : Type}.

(** The remote end: how a query is answered and what it does to the
    world. *)
Variable remote : ∀ T, query T → World → response T * World.

(** [ERROR_MESSAGES] of [constants/app-constants]: the table of message
    prefixes, whatever it holds. *)
Variable ERROR_MESSAGES : gmap string jsval.

(** [Date]: [new Date()], [d.setDate(d.getDate() - n)] and
    [d.toISOString()]. *)
Context {Date : Type}.
Variable newDate : World → Date.
Variable minusDays : Date → nat → Date.
Variable toISOString : Date → jsstring.

(** *** Effects: the world, exceptions and the trace of queries *)

Record outcome (A : Type) := Outcome {
  result : completion A;
  after : World;
  trace : list call
}.
Arguments Outcome {A} result after trace.
Arguments result {A} o.
Arguments after {A} o.
Arguments trace {A} o.

Definition M (A : Type) : Type := World → outcome A.

Global Instance M_ret : MRet M := λ A a w, Outcome (Normal a) w [].

Definition throw {A} (message : jsstring) : M A :=
  λ w, Outcome (Throw message) w [].

Global Instance M_bind : MBind M := λ A B f m w,
  let o := m w in
  match result o with
  | Normal a =>
      let o' := f a (after o) in
      Outcome (result o') (after o') (trace o ++ trace o')
  | Throw e => Outcome (Throw e) (after o) (trace o)
  end.

(** [try { m } catch (error) { handler(error) }] *)
Definition try_catch {A} (m : M A) (handler : jsstring → M A) : M A := λ w,
  let o := m w in
  match result o with
  | Normal a => o
  | Throw e =>
      let o' := handler e (after o) in
      Outcome (result o') (after o') (trace o ++ trace o')
  end.

(** A synchronous computation that may throw. *)
Definition lift {A} (c : completion A) : M A :=
  λ w, Outcome c w [].

(** [await supabase.from('passwords')...] *)
Definition await {T} (q : query T) : M (response T) := λ w,
  let '(r, w') := remote T q w in
  Outcome (Normal r) w' [Call q].

(** [new Date()] *)
Definition now : M Date := λ w, Outcome (Normal (newDate w)) w [].

(** *** [handleError] *)

(** [ERROR_MESSAGES[operation] || 'Operation failed'] *)
Definition errorPrefix (operation : string) : jsstring :=
  let m := get operation ERROR_MESSAGES in
  if truthy m then str_of m else lit "Operation failed".

(** [error?.message || 'Unknown error'] *)
Definition errorMessage (message : jsstring) : jsstring :=
  if nonempty message then message else lit "Unknown error".

Definition wrapped (operation : string) (message : jsstring) : jsstring :=
  errorPrefix operation ++ lit ": " ++ errorMessage message.

Definition handleError {A} (operation : string) (message : jsstring) : M A :=
  throw (wrapped operation message).

(** *** [validatePasswordData] *)

(** One [if] of [validatePasswordData]:
    [key in data && data[key] && (!data[key].trim() || data[key].length > limit)] *)
Definition violates (key : string) (limit : nat) (data : obj) : bool :=
  has key data
  && truthy (get key data)
  && (negb (nonempty (trim (str_of (get key data))))
      || (limit <? length (str_of (get key data)))).

Definition validatePasswordData (data : obj) : completion unit :=
  if violates "service" 100 data then
    Throw (lit "Service name must be between 1-100 characters")
  else if violates "username" 100 data then
    Throw (lit "Username must be between 1-100 characters")
  else if violates "password" 500 data then
    Throw (lit "Password must be between 1-500 characters")
  else Normal ().

(** *** [convertFromDatabase] *)

Definition requiredFields : list string :=
  ["id"; "service"; "username"; "password"; "created_at"; "updated_at"].

(** The [for] loop over [requiredFields]: the first falsy field throws. *)
Fixpoint checkRequired (fields : list string) (dbRow : obj) : completion unit :=
  match fields with
  | [] => Normal ()
  | field :: rest =>
      if negb (truthy (get field dbRow)) then
        Throw (lit "Missing required field: " ++ lit field)
      else checkRequired rest dbRow
  end.

Definition convertFromDatabase (dbRow : option obj) : completion PasswordEntry :=
  match dbRow with
  | None => Throw (lit "Database row is null or undefined")
  | Some row =>
      cbind (checkRequired requiredFields row) (λ _,
        Normal {| id := str_of (get "id" row);
                  service := str_of (get "service" row);
                  username := str_of (get "username" row);
                  password := str_of (get "password" row);
                  createdAt := str_of (get "created_at" row);
                  updatedAt := str_of (get "updated_at" row) |})
  end.

(** [(data || []).map(this.convertFromDatabase)] *)
Definition convertRows (data : option (list obj)) : completion (list PasswordEntry) :=
  cmap (λ row, convertFromDatabase (Some row)) (default [] data).

(** *** [getAllPasswords] *)

Definition getAllPasswords : M (list PasswordEntry) :=
  try_catch
    (r ← await QSelectAll;
     match r with
     | Failure e => handleError "FETCH_FAILED" e
     | Success data _ => lift (convertRows data)
     end)
    (handleError "FETCH_FAILED").

(** *** [searchPasswords] *)

(** The argument of [.or(...)]:
    [`service.ilike.%${q}%,username.ilike.%${q}%`] *)
Definition orFilterOf (q : jsstring) : jsstring :=
  lit "service.ilike.%" ++ q ++ lit "%,username.ilike.%" ++ q ++ lit "%".

(** [query || ''] is [query] for a string. [return this.getAllPasswords()]
    hands the promise of [getAllPasswords] over without awaiting it, so
    its rejection does not pass through the [catch] of [searchPasswords]. *)
Definition searchPasswords (query : jsstring) : M (list PasswordEntry) :=
  let sanitizedQuery := sanitizeSearchQuery query in
  if negb (nonempty sanitizedQuery) then getAllPasswords
  else
    try_catch
      (r ← await (QSearch (orFilterOf sanitizedQuery));
       match r with
       | Failure e => handleError "SEARCH_FAILED" e
       | Success data _ => lift (convertRows data)
       end)
      (handleError "SEARCH_FAILED").

(** *** [addPassword] *)

Definition addPassword (passwordData : CreatePasswordEntry) : M PasswordEntry :=
  try_catch
    (lift (validatePasswordData (obj_of_create passwordData));;
     r ← await (QInsertSingle [obj_of_create passwordData]);
     match r with
     | Failure e => handleError "ADD_FAILED" e
     | Success data _ => lift (convertFromDatabase data)
     end)
    (handleError "ADD_FAILED").

(** *** [updatePassword] *)

(** The test of the [reduce] callback:
    [value !== undefined && value !== null && value.toString().trim()] *)
Definition keeps (value : jsval) : bool :=
  bool_decide (value ≠ JUndefined)
  && bool_decide (value ≠ JNull)
  && nonempty (trim (str_of value)).

(** [acc[key] = value] on the plain object [acc]: the property is set,
    except for the key [__proto__], which names the prototype accessor of
    a plain object; its setter sets no property of [acc] and ignores a
    string. *)
Definition assign (key : string) (value : jsval) (acc : obj) : obj :=
  if decide (key = "__proto__"%string) then acc else <[key := value]> acc.

(** [Object.entries(passwordData).reduce(..., {})] *)
Definition updateFieldsOf (passwordData : obj) : obj :=
  map_fold (λ key value acc, if keeps value then assign key value acc else acc)
           ∅ passwordData.

Definition updatePassword (rowId : jsstring) (passwordData : obj) : M PasswordEntry :=
  try_catch
    ((if negb (nonempty (trim rowId))
      then throw (lit "Password ID is required") else mret ());;
     lift (validatePasswordData passwordData);;
     let updateFields := updateFieldsOf passwordData in
     (if bool_decide (size updateFields = 0)
      then throw (lit "No valid fields to update") else mret ());;
     r ← await (QUpdateSingle updateFields rowId);
     match r with
     | Failure e => handleError "UPDATE_FAILED" e
     | Success data _ => lift (convertFromDatabase data)
     end)
    (handleError "UPDATE_FAILED").

(** *** [deletePassword] *)

Definition deletePassword (rowId : jsstring) : M unit :=
  try_catch
    ((if negb (nonempty (trim rowId))
      then throw (lit "Password ID is required") else mret ());;
     r ← await (QDelete rowId);
     match r with
     | Failure e => handleError "DELETE_FAILED" e
     | Success _ _ => mret ()
     end)
    (handleError "DELETE_FAILED").

(** *** [getPasswordStats] *)

(** [count] of a response: [null] when the query failed. *)
Definition countOf {T} (r : response T) : option N :=
  match r with
  | Failure _ => None
  | Success _ count => count
  end.

Definition getPasswordStats : M PasswordStats :=
  try_catch
    (r ← await QCount;
     (match r with
      | Failure countError => handleError "STATS_FAILED" countError
      | Success _ _ => mret ()
      end);;
     d ← now;
     let sevenDaysAgo := minusDays d 7 in
     r' ← await (QCountGte "created_at" (toISOString sevenDaysAgo));
     mret {| total := default 0%N (countOf r);
            recentCount := default 0%N (countOf r') |})
    (λ _, mret {| total := 0%N; recentCount := 0%N |}).

(** *** [batchAddPasswords] *)

(** The [forEach] that validates every entry; [index] is the position of
    the head of [passwords] in the whole array. *)
Fixpoint validateEach (index : nat) (passwords : list CreatePasswordEntry)
  : completion unit :=
  match passwords with
  | [] => Normal ()
  | pwd :: rest =>
      match validatePasswordData (obj_of_create pwd) with
      | Throw e =>
          Throw (lit "Validation failed for password " ++ lit (pretty (index + 1))
                 ++ lit ": " ++ error_toString e)
      | Normal _ => validateEach (S index) rest
      end
  end.

Definition batchAddPasswords (passwords : list CreatePasswordEntry)
  : M (list PasswordEntry) :=
  try_catch
    ((if bool_decide (length passwords = 0)
      then throw (lit "No passwords provided for batch insert") else mret ());;
     lift (validateEach 0 passwords);;
     r ← await (QInsertMany (obj_of_create <$> passwords));
     match r with
     | Failure e => handleError "ADD_FAILED" e
     | Success data _ => lift (convertRows data)
     end)
    (handleError "ADD_FAILED").

(** *** Summaries used when reasoning about the operations *)

(** What one [if] of [validatePasswordData] rejects in a string field: a
    non-empty string that is all white space or longer than the limit. *)
Definition rejected (limit : nat) (s : jsstring) : bool :=
  nonempty s && (blank s || (limit <? length s)).

(** The recent-count query as issued when the clock of [w] is read. *)
Definition recentQuery (w : World) : query unit :=
  QCountGte "created_at" (toISOString (minusDays (newDate w) 7)).

(** What the [catch] of an operation makes of what its [try] block
    leaves: a thrown error is wrapped once more. *)
Definition caught {A} (operation : string) (c : completion A) : completion A :=
  match c with
  | Normal a => Normal a
  | Throw e => Throw (wrapped operation e)
  end.

(** The [try] block after a response arrived: [if (error) handleError],
    then the conversion. *)
Definition answered {T A} (operation : string) (convert : option T → completion A)
    (r : response T) : completion A :=
  match r with
  | Failure e => Throw (wrapped operation e)
  | Success data _ => convert data
  end.

End Service.

Arguments Outcome {World A} result after trace.
Arguments result {World A} o.
Arguments after {World A} o.
Arguments trace {World A} o.

End SupabasePasswordService.

Import SupabasePasswordService.

(** [UpdatePasswordEntry], that is [Partial<CreatePasswordEntry>]: an
    object with no property besides [service], [username] and [password]. *)
Definition isUpdatePasswordEntry (o : obj) : Prop :=
  ∀ key, is_Some (o !! key) → key ∈ ["service"; "username"; "password"]%string.

(** ** The hosted table, as far as [updatePassword] relies on it *)

Section HostedTable.

(** How the database renders the instant [t] in a timestamp column. *)
Variable stamp : N → jsstring.

(** The table [passwords] and the database clock. *)
Record hosted := Hosted { rows : list obj; clock : N }.

(** The answers to the queries that this section does not describe. *)
Variable other : ∀ T, query T → hosted → response T * hosted.

(** [.eq('id', rowId)] *)
Definition matches (rowId : jsstring) (row : obj) : bool :=
  bool_decide (get "id" row = JStr rowId).

(** Modelled from the spec: the effect of an update on a stored row, which
    the hosted database performs and the client code does not contain.
    The spec has a record "mutated in place by update (only updatedAt and
    the changed fields move)" and "updatedAt ... refreshed on every
    successful mutation": the columns named in [fields] take the values
    sent, every other column keeps its value, and [updated_at] becomes
    the instant of the mutation. *)
Definition refreshed (fields : obj) (t : N) (row : obj) : obj :=
  <["updated_at" := JStr (stamp t)]> (fields ∪ row).

(** Modelled from the spec: [update set {...} where id=eq returning row],
    answered by the hosted database, which the client code does not
    contain. A mutation happens at an instant later than every earlier
    one; [.single()] makes anything but exactly one affected row a
    failure ("update(id, input) -> CredentialRecord | not-found"). *)
Definition hosted_update (fields : obj) (rowId : jsstring) (w : hosted)
  : response obj * hosted :=
  let t := (clock w + 1)%N in
  match List.filter (matches rowId) (rows w) with
  | [row] =>
      (Success (Some (refreshed fields t row)) None,
       Hosted ((λ r, if matches rowId r then refreshed fields t r else r)
                 <$> rows w) t)
  | _ =>
      (Failure (lit "JSON object requested, multiple (or no) rows returned"), w)
  end.

Definition hosted_remote (T : Type) (q : query T) : hosted → response T * hosted :=
  match q in query T return hosted → response T * hosted with
  | QUpdateSingle fields rowId => hosted_update fields rowId
  | q' => other _ q'
  end.

End HostedTable.

(** A remote that cannot be reached: every query fails. *)
Definition offline {World : Type} (T : Type) (_ : query T) (w : World)
  : response T * World :=
  (Failure (lit "Failed to fetch"), w).

(** A remote on which counting every row works and nothing else does. *)
Definition countOnly (T : Type) (q : query T) (w : hosted) : response T * hosted :=
  match q in query T return response T * hosted with
  | QCount => (Success None (Some (N.of_nat (length (rows w)))), w)
  | _ => (Failure (lit "Failed to fetch"), w)
  end.

(** ** Configuration of the Supabase client *)

Module Config.

(** [Array.prototype.join] *)
Fixpoint join (sep : jsstring) (l : list jsstring) : jsstring :=
  match l with
  | [] => []
  | [x] => x
  | x :: l' => x ++ sep ++ join sep l'
  end.

(** [Object.entries(config)]: the two properties in the order the object
    literal declares them, holding the two [import.meta.env] values. *)
Definition configEntries (supabaseUrl supabaseAnonKey : jsval)
  : list (string * jsval) :=
  [("supabaseUrl", supabaseUrl); ("supabaseAnonKey", supabaseAnonKey)].

(** [.filter(([_, value]) => !value).map(([key]) => key)] *)
Definition missingOf (entries : list (string * jsval)) : list string :=
  fst <$> List.filter (λ kv, negb (truthy kv.2)) entries.

Definition validateConfig (supabaseUrl supabaseAnonKey : jsval) : completion unit :=
  let missing := missingOf (configEntries supabaseUrl supabaseAnonKey) in
  if 0 <? length missing then
    Throw (lit "Missing environment variables: " ++ join (lit ", ") (lit <$> missing))
  else Normal ().

Section Load.
(** [createClient] of the Supabase library. *)
Context {Client : Type}.
Variable createClient : jsval → jsval → completion Client.

(** Loading the module: [validateConfig()] runs, then the exported
    client is created. *)
Definition loadModule (supabaseUrl supabaseAnonKey : jsval) : completion Client :=
  cbind (validateConfig supabaseUrl supabaseAnonKey) (λ _,
    createClient supabaseUrl supabaseAnonKey).
End Load.

End Config.

(** ** A refinement target: the sanitization as the specification words it *)

(** Escaping a wildcard: a backslash in front of the character, which
    stays. *)
Definition escapeWildcards (s : jsstring) : jsstring :=
  flat_map (λ c, if isWildcard c then [92%N; c] else [c]) s.

(** The steps in the order of the sentence: trim, truncate to 100, escape
    the wildcards, strip the angle brackets. *)
Definition sanitizeAsWorded (query : jsstring) : jsstring :=
  replaceClass isAngle [] (escapeWildcards (substring0 100 (trim query))).

(** ** Sample data *)

Module Sample.
Definition messages : gmap string jsval :=
  <["ADD_FAILED" := JStr (lit "Could not add password")]>
    (<["UPDATE_FAILED" := JStr (lit "Could not update password")]> ∅).

Definition stamp (t : N) : jsstring := lit (pretty t).

Definition email : obj :=
  <["id" := JStr (lit "r1")]>
    (<["service" := JStr (lit "Email")]>
       (<["username" := JStr (lit "a@b.com")]>
          (<["password" := JStr (lit "p")]>
             (<["created_at" := JStr (stamp 3)]>
                (<["updated_at" := JStr (stamp 3)]> ∅))))).

Definition world : hosted := Hosted [email] 5.

Definition good : CreatePasswordEntry :=
  {| c_service := lit "Email"; c_username := lit "a@b.com"; c_password := lit "p" |}.
Definition blankService : CreatePasswordEntry :=
  {| c_service := lit "   "; c_username := lit "bob"; c_password := lit "q" |}.
Definition emptyService : CreatePasswordEntry :=
  {| c_service := []; c_username := lit "alice"; c_password := lit "secret" |}.

(** Five valid entries and a blank one among them. *)
Definition batch : list CreatePasswordEntry :=
  [good; good; blankService; good; good; good].

(** [{password: "q"}] and [{service: " "}] *)
Definition newPassword : obj := {["password" := JStr (lit "q")]}.
Definition blankUpdate : obj := {["service" := JStr (lit " ")]}.

(** A row on which [password] is absent. *)
Definition partial : obj := delete "password" email.

(** A client clock in days. *)
Definition today (w : hosted) : N := clock w.
Definition daysBefore (d : N) (n : nat) : N := (d - N.of_nat n)%N.

(** A remote on which counting works and the recent count does not. *)
Definition remote : ∀ T, query T → hosted → response T * hosted :=
  hosted_remote stamp countOnly.

(** 100 times [<], then [a]. *)
Definition brackets : jsstring := replicate 100 60%N ++ lit "a".
End Sample.

(** ** The [usePasswords] hook ([src/hooks/use-passwords.ts]) *)

(** The UTF-16 code units of a literal written in UTF-8 (one to three
    bytes per character give one code unit, four bytes give a surrogate
    pair). *)
Fixpoint utf16_of_bytes (bytes : list N) : jsstring :=
  match bytes with
  | [] => []
  | b :: rest =>
      if (b <? 128)%N then b :: utf16_of_bytes rest
      else if (b <? 224)%N then
        match rest with
        | c :: rest' => ((b - 192) * 64 + (c - 128))%N :: utf16_of_bytes rest'
        | _ => []
        end
      else if (b <? 240)%N then
        match rest with
        | c :: d :: rest' =>
            ((b - 224) * 4096 + (c - 128) * 64 + (d - 128))%N :: utf16_of_bytes rest'
        | _ => []
        end
      else
        match rest with
        | c :: d :: e :: rest' =>
            let point := ((b - 240) * 262144 + (c - 128) * 4096
                          + (d - 128) * 64 + (e - 128))%N in
            (55296 + (point - 65536) / 1024)%N
              :: (56320 + (point - 65536) mod 1024)%N :: utf16_of_bytes rest'
        | _ => []
        end
  end.

Definition text (s : string) : jsstring := utf16_of_bytes (lit s).

Module UsePasswords.

(** What [toast] is called with: [variant: 'destructive'] or none. *)
Record notice := Notice {
  title : jsstring;
  description : jsstring;
  destructive : bool
}.

(** [stats] *)
Record stats := { total : nat; hasPasswords : bool }.

Section Hook.

(** [dbManager] of [lib/db/db] with its store, the entries it holds (of
    which the hook reads [id] only) and the input of add and update. *)
Context {Db Entry Input : Type}.
Variable entryId : Entry → jsstring.
Variable db_getAllPasswords : Db → completion (list Entry) * Db.
Variable db_searchPasswords : jsstring → Db → completion (list Entry) * Db.
Variable db_addPassword : Input → Db → completion Entry * Db.
Variable db_updatePassword : jsstring → Input → Db → completion (option Entry) * Db.
Variable db_deletePassword : jsstring → Db → completion bool * Db.

(** The calls made on [dbManager]. *)
Inductive dbCall :=
| GetAll
| Search (query : jsstring)
| Add (entry : Input)
| Update (entryId : jsstring) (entry : Input)
| Delete (entryId : jsstring).

(** The three [useState] cells, the store, the toasts shown and the calls
    made so far. *)
Record hook := Hook {
  passwords : list Entry;
  loading : bool;
  error : option jsstring;
  db : Db;
  toasts : list notice;
  calls : list dbCall
}.

Definition setPasswords (f : list Entry → list Entry) (h : hook) : hook :=
  Hook (f (passwords h)) (loading h) (error h) (db h) (toasts h) (calls h).

Definition setLoading (value : bool) (h : hook) : hook :=
  Hook (passwords h) value (error h) (db h) (toasts h) (calls h).

Definition setError (value : option jsstring) (h : hook) : hook :=
  Hook (passwords h) (loading h) value (db h) (toasts h) (calls h).

Definition toast (n : notice) (h : hook) : hook :=
  Hook (passwords h) (loading h) (error h) (db h) (toasts h ++ [n]) (calls h).

(** [await dbManager....] *)
Definition awaitDb {A} (c : dbCall) (run : Db → completion A * Db) (h : hook)
  : completion A * hook :=
  let '(r, d) := run (db h) in
  (r, Hook (passwords h) (loading h) (error h) d (toasts h) (calls h ++ [c])).

(** [handleError]: the error goes to the console, the message to the
    state and to a destructive toast. *)
Definition handleError (message : jsstring) (h : hook) : hook :=
  toast (Notice (text "Lỗi") message true) (setError (Some message) h).

Definition showSuccess (message : jsstring) (h : hook) : hook :=
  toast (Notice (text "Thành công") message false) h.

Definition fetchPasswords (h : hook) : hook :=
  let h1 := setError None (setLoading true h) in
  let '(r, h2) := awaitDb GetAll db_getAllPasswords h1 in
  let h3 :=
    match r with
    | Normal data => setPasswords (λ _, data) h2
    | Throw _ => handleError (text "Không thể lấy danh sách mật khẩu") h2
    end in
  setLoading false h3.

Definition searchPasswords (query : jsstring) (h : hook) : hook :=
  let h1 := setError None (setLoading true h) in
  let '(r, h2) :=
    if nonempty (trim query)
    then awaitDb (Search query) (db_searchPasswords query) h1
    else awaitDb GetAll db_getAllPasswords h1 in
  let h3 :=
    match r with
    | Normal data => setPasswords (λ _, data) h2
    | Throw _ => handleError (text "Không thể tìm kiếm mật khẩu") h2
    end in
  setLoading false h3.

Definition addPassword (entry : Input) (h : hook) : completion Entry * hook :=
  let '(r, h1) := awaitDb (Add entry) (db_addPassword entry) h in
  match r with
  | Normal newEntry =>
      (Normal newEntry,
       showSuccess (text "Mật khẩu mới đã được thêm thành công")
         (setPasswords (λ prev, newEntry :: prev) h1))
  | Throw err =>
      (Throw err, handleError (text "Không thể thêm mật khẩu mới") h1)
  end.

Definition updatePassword (rowId : jsstring) (entry : Input) (h : hook)
  : completion (option Entry) * hook :=
  let '(r, h1) := awaitDb (Update rowId entry) (db_updatePassword rowId entry) h in
  match r with
  | Normal (Some updatedEntry) =>
      (Normal (Some updatedEntry),
       showSuccess (text "Mật khẩu đã được cập nhật thành công")
         (setPasswords
            (λ prev, (λ item, if decide (entryId item = rowId)
                              then updatedEntry else item) <$> prev) h1))
  | Normal None => (Normal None, h1)
  | Throw err =>
      (Throw err, handleError (text "Không thể cập nhật mật khẩu") h1)
  end.

Definition deletePassword (rowId : jsstring) (h : hook) : completion bool * hook :=
  let '(r, h1) := awaitDb (Delete rowId) (db_deletePassword rowId) h in
  match r with
  | Normal true =>
      (Normal true,
       showSuccess (text "Mật khẩu đã được xóa")
         (setPasswords
            (λ prev, List.filter (λ entry, negb (bool_decide (entryId entry = rowId)))
                       prev) h1))
  | Normal false => (Normal false, h1)
  | Throw err => (Throw err, handleError (text "Không thể xóa mật khẩu") h1)
  end.

(** [useMemo] over [passwords.length] *)
Definition statsOf (h : hook) : stats :=
  {| total := length (passwords h); hasPasswords := 0 <? length (passwords h) |}.

(** The state of the first render; the effect of mounting fetches. *)
Definition initial (d : Db) : hook := Hook [] true None d [] [].
Definition mounted (d : Db) : hook := fetchPasswords (initial d).

End Hook.

End UsePasswords.

(** ** The debug component ([src/components/NetlifyDebugTest.tsx]) *)

Module NetlifyDebug.

(** The queries the component awaits on [supabase.from('passwords')]. *)
Inductive dquery : Type → Type :=
| DProbe : dquery N
    (* .select('count', { count: 'exact', head: true }) *)
| DInsertSingle (rows : list obj) : dquery obj
    (* .insert([testEntry]).select().single() *)
| DSelectLimit (limit : nat) : dquery (list obj)
    (* .select('*').limit(5) *)
| DDelete (rowId : jsval) : dquery unit.
    (* .delete().eq('id', insertData.id) *)

Definition dcall : Type := { T : Type & dquery T }.
Definition DCall {T} (q : dquery T) : dcall := existT T q.

(** [EnvironmentInfo] *)
Record EnvironmentInfo := {
  supabaseUrl : jsstring;
  hasAnonKey : bool;
  anonKeyLength : nat;
  mode : jsstring;
  dev : bool;
  prod : bool
}.

(** [TestResult]; an optional property that is not set is [None], and so
    is a [null]. *)
Record TestResult := {
  success : bool;
  error : option jsstring;
  latency : option jsstring;
  count : option N;
  data : option jsstring
}.

(** [DatabaseTestResults] *)
Record DatabaseTestResults := {
  insert : option TestResult;
  select : option TestResult;
  cleanup : option TestResult
}.

(** [DebugResults]; its property [error] is [failure] here, [error]
    being the field of [TestResult]. *)
Record DebugResults := {
  timestamp : jsstring;
  environment : EnvironmentInfo;
  supabaseTest : TestResult;
  databaseTest : DatabaseTestResults;
  failure : option jsstring
}.

(** [!error] *)
Definition succeeded {T} (r : response T) : bool :=
  match r with
  | Failure _ => false
  | Success _ _ => true
  end.

(** [error?.message || null] *)
Definition messageOf {T} (r : response T) : option jsstring :=
  match r with
  | Failure message => if nonempty message then Some message else None
  | Success _ _ => None
  end.

(** [data] of a response: [null] when the query failed. *)
Definition dataOf {T} (r : response T) : option T :=
  match r with
  | Failure _ => None
  | Success data _ => data
  end.

Section Component.

Context {World : Type}.
Variable remote : ∀ T, dquery T → World → response T * World.

(** [Date.now()] and [new Date().toISOString()] *)
Variable dateNow : World → Z.
Variable isoNow : World → jsstring.

(** [import.meta.env] *)
Variable VITE_SUPABASE_URL : jsval.
Variable VITE_SUPABASE_ANON_KEY : jsval.
Variable MODE : jsstring.
Variable DEV : bool.
Variable PROD : bool.

Definition checkEnvironmentVariables : EnvironmentInfo :=
  {| supabaseUrl :=
       if truthy VITE_SUPABASE_URL then str_of VITE_SUPABASE_URL else lit "NOT_SET";
     hasAnonKey := truthy VITE_SUPABASE_ANON_KEY;
     anonKeyLength := length (str_of VITE_SUPABASE_ANON_KEY);
     mode := MODE;
     dev := DEV;
     prod := PROD |}.

(** The result of a test, the world after it and the queries it issued.
    No query of the library rejects, so the [catch] blocks of the
    component have nothing to catch. *)
Definition testSupabaseConnection (w : World) : TestResult * World * list dcall :=
  let startTime := dateNow w in
  let '(r, w1) := remote _ DProbe w in
  let elapsed := (dateNow w1 - startTime)%Z in
  ({| success := succeeded r;
      latency := Some (lit (pretty elapsed) ++ lit "ms");
      error := messageOf r;
      count := Some (default 0%N (dataOf r));
      data := None |},
   w1, [DCall DProbe]).

(** [testEntry] *)
Definition testEntry (w : World) : obj :=
  <["service" := JStr (lit "Netlify Test " ++ lit (pretty (dateNow w)))]>
    (<["username" := JStr (lit "test@netlify.com")]>
       (<["password" := JStr (lit "test123")]> ∅)).

(** [insertData?.id] *)
Definition insertedId (r : response obj) : jsval :=
  match dataOf r with
  | Some row => get "id" row
  | None => JUndefined
  end.

Definition testDatabaseOperations (w : World)
  : DatabaseTestResults * World * list dcall :=
  let '(insertAnswer, w1) := remote _ (DInsertSingle [testEntry w]) w in
  let insertResult :=
    {| success := succeeded insertAnswer;
       error := messageOf insertAnswer;
       latency := None;
       count := None;
       data := if truthy (insertedId insertAnswer)
               then Some (str_of (insertedId insertAnswer)) else None |} in
  let '(selectAnswer, w2) := remote _ (DSelectLimit 5) w1 in
  let selectResult :=
    {| success := succeeded selectAnswer;
       error := messageOf selectAnswer;
       latency := None;
       count := Some (N.of_nat (length (default [] (dataOf selectAnswer))));
       data := None |} in
  if truthy (insertedId insertAnswer) then
    let '(deleteAnswer, w3) := remote _ (DDelete (insertedId insertAnswer)) w2 in
    ({| insert := Some insertResult;
        select := Some selectResult;
        cleanup := Some {| success := succeeded deleteAnswer;
                           error := messageOf deleteAnswer;
                           latency := None; count := None; data := None |} |},
     w3,
     [DCall (DInsertSingle [testEntry w]); DCall (DSelectLimit 5);
      DCall (DDelete (insertedId insertAnswer))])
  else
    ({| insert := Some insertResult; select := Some selectResult; cleanup := None |},
     w2, [DCall (DInsertSingle [testEntry w]); DCall (DSelectLimit 5)]).

(** The two [useState] cells of the component. *)
Record view := View { debugInfo : option DebugResults; loading : bool }.

(** [runDebugTest]: the view it leaves, the world after it and the
    queries it issued. *)
Definition runDebugTest (w : World) : view * World * list dcall :=
  let stamp := isoNow w in
  let '(connection, w1, asked) := testSupabaseConnection w in
  let '(database, w2, asked') :=
    if success connection then testDatabaseOperations w1
    else ({| insert := None; select := None; cleanup := None |}, w1, []) in
  (View (Some {| timestamp := stamp;
                 environment := checkEnvironmentVariables;
                 supabaseTest := connection;
                 databaseTest := database;
                 failure := None |}) false,
   w2, asked ++ asked').

End Component.

End NetlifyDebug.

(** ** Stand-ins for the closed instances of the further properties *)

Module Fixture.

(** A rendering of instants that [str_ltb] orders as the instants:
    one mark more per tick. *)
Definition tally (t : N) : jsstring := replicate (S (N.to_nat t)) 73%N.

(** A stored row stamped in tally marks, and the table that holds it
    beside the sample row. *)
Definition note : obj :=
  <["id" := JStr (lit "n1")]>
    (<["service" := JStr (lit "Forum")]>
       (<["username" := JStr (lit "carol")]>
          (<["password" := JStr (lit "old")]>
             (<["created_at" := JStr (tally 2)]>
                (<["updated_at" := JStr (tally 4)]> ∅))))).
Definition table : hosted := Hosted [Sample.email; note] 7.

(** Five valid entries and one whose service is the empty string. *)
Definition emptyBatch : list CreatePasswordEntry :=
  [Sample.good; Sample.good; Sample.emptyService; Sample.good; Sample.good;
   Sample.good].

(** A store for the hook whose entries are their own ids. *)
Definition store_getAll (d : list jsstring) : completion (list jsstring) * list jsstring :=
  (Normal d, d).
Definition store_search (q : jsstring) (d : list jsstring)
  : completion (list jsstring) * list jsstring :=
  (Normal (List.filter (λ e, bool_decide (e = q)) d), d).
Definition store_add (i : jsstring) (d : list jsstring)
  : completion jsstring * list jsstring :=
  (Normal i, i :: d).
Definition store_update (rowId i : jsstring) (d : list jsstring)
  : completion (option jsstring) * list jsstring :=
  (Normal (if bool_decide (rowId ∈ d) then Some rowId else None), d).
Definition store_delete (rowId : jsstring) (d : list jsstring)
  : completion bool * list jsstring :=
  (Normal (bool_decide (rowId ∈ d)),
   List.filter (λ e, negb (bool_decide (e = rowId))) d).

(** A store that refuses everything. *)
Definition full {A} (d : list jsstring) : completion A * list jsstring :=
  (Throw (lit "QuotaExceededError"), d).

(** The hook holding two entries, over a store that holds them. *)
Definition held : @UsePasswords.hook (list jsstring) jsstring jsstring :=
  UsePasswords.Hook [lit "a"; lit "b"] false None [lit "a"; lit "b"] [] [].

(** A remote for the debug component on which every query succeeds and
    the insert returns the sample row, and one that cannot be reached. *)
Definition up (T : Type) (q : NetlifyDebug.dquery T) (w : ()) : response T * () :=
  match q in NetlifyDebug.dquery T return response T * () with
  | NetlifyDebug.DProbe => (Success None None, ())
  | NetlifyDebug.DInsertSingle _ => (Success (Some Sample.email) None, ())
  | NetlifyDebug.DSelectLimit _ => (Success (Some [Sample.email]) None, ())
  | NetlifyDebug.DDelete _ => (Success None None, ())
  end.
Definition down (T : Type) (_ : NetlifyDebug.dquery T) (w : ()) : response T * () :=
  (Failure (lit "Failed to fetch"), w).

End Fixture.

(** ** Notions used to state further properties of the service *)

(** [a < b] on strings: the comparison of JavaScript, code unit by code
    unit, a proper prefix coming first. Timestamps in ISO 8601 are
    ordered by it as the instants they name. *)
Fixpoint str_ltb (a b : jsstring) : bool :=
  match a, b with
  | _, [] => false
  | [], _ :: _ => true
  | x :: a', y :: b' => (x <? y)%N || ((x =? y)%N && str_ltb a' b')
  end.

(** A row that has every required column. *)
Definition complete (row : obj) : Prop :=
  ∀ field, field ∈ requiredFields → truthy (get field row) = true.

(** The record that the fields of a row make, [created_at] read as
    [createdAt] and [updated_at] as [updatedAt]. *)
Definition entryOfRow (row : obj) : PasswordEntry :=
  {| id := str_of (get "id" row);
     service := str_of (get "service" row);
     username := str_of (get "username" row);
     password := str_of (get "password" row);
     createdAt := str_of (get "created_at" row);
     updatedAt := str_of (get "updated_at" row) |}.

(** The message [e] starts with the prefix of [operation] and ": ". *)
Definition hasPrefix (ERROR_MESSAGES : gmap string jsval) (operation : string)
    (e : jsstring) : Prop :=
  ∃ m, e = errorPrefix ERROR_MESSAGES operation ++ lit ": " ++ m.

(** The three validated fields with their limits. *)
Definition limits : list (string * nat) :=
  [("service", 100); ("username", 100); ("password", 500)]%string.

(** A remote that lists [table], accepts every delete and fails every
    other query. *)
Definition listing (table : list obj) (T : Type) (q : query T) (w : ())
  : response T * () :=
  match q in query T return response T * () with
  | QSelectAll => (Success (Some table) None, ())
  | QDelete _ => (Success None None, ())
  | _ => (Failure (lit "Failed to fetch"), ())
  end.

(** * Properties *)

(** ** Strings *)

Lemma trimStart_nil (s : jsstring) : trimStart s = [] ↔ blank s = true.
Proof.
  unfold blank. induction s as [|c s IH]; simpl; [done|].
  destruct (isWhiteSpace c); simpl; [done|]. split; discriminate.
Qed.

Lemma trimStart_head (s : jsstring) c t :
  trimStart s = c :: t → isWhiteSpace c = false.
Proof.
  induction s as [|d s IH]; simpl; [done|].
  destruct (isWhiteSpace d) eqn:Hd; [done|]. intros [= -> _]. done.
Qed.

Lemma blank_app (s t : jsstring) : blank (s ++ t) = blank s && blank t.
Proof. unfold blank. apply forallb_app. Qed.

Lemma blank_reverse (s : jsstring) : blank (reverse s) = blank s.
Proof.
  induction s as [|c s IH]; [done|].
  rewrite reverse_cons, blank_app, IH. unfold blank. simpl.
  rewrite andb_true_r. apply andb_comm.
Qed.

(** [s.trim()] is empty exactly when [s] is empty or holds only white
    space. *)
Lemma trim_nil (s : jsstring) : trim s = [] ↔ blank s = true.
Proof.
  unfold trim, trimEnd. split.
  - intros H. apply (f_equal reverse) in H. rewrite reverse_involutive in H.
    simpl in H. apply trimStart_nil in H. rewrite blank_reverse in H.
    destruct (trimStart s) as [|c t] eqn:E; [by apply trimStart_nil|].
    apply trimStart_head in E. unfold blank in H. simpl in H.
    by rewrite E in H.
  - intros H. apply trimStart_nil in H. by rewrite H.
Qed.

Lemma nonempty_trim (s : jsstring) : nonempty (trim s) = negb (blank s).
Proof.
  destruct (blank s) eqn:Hb.
  - apply trim_nil in Hb. by rewrite Hb.
  - destruct (trim s) eqn:E; [|done].
    apply trim_nil in E. congruence.
Qed.

(** ** Sanitization *)

Example sanitize_plain :
  sanitizeSearchQuery (lit "  GitHub  ") = lit "GitHub".
Proof. reflexivity. Qed.

Example sanitize_angle :
  sanitizeSearchQuery (lit "<b>git</b>") = lit "bgit/b".
Proof. reflexivity. Qed.

Lemma replaceClass_nil_filter cls (s : jsstring) :
  replaceClass cls [] s = List.filter (λ c, negb (cls c)) s.
Proof.
  unfold replaceClass. induction s as [|c s IH]; simpl; [done|].
  rewrite IH. by destruct (cls c).
Qed.

Lemma replaceClass_id cls r (s : jsstring) :
  forallb (λ c, negb (cls c)) s = true → replaceClass cls r s = s.
Proof.
  unfold replaceClass. induction s as [|c s IH]; simpl; [done|].
  intros [Hc Hs]%andb_prop. destruct (cls c); [done|]. simpl. by rewrite IH.
Qed.

Lemma sanitize_length (q : jsstring) : length (sanitizeSearchQuery q) ≤ 100.
Proof. unfold sanitizeSearchQuery, substring0. rewrite length_take. lia. Qed.

Lemma sanitize_no_angle (q : jsstring) c :
  c ∈ sanitizeSearchQuery q → isAngle c = false.
Proof.
  unfold sanitizeSearchQuery, substring0. intros Hc.
  apply subseteq_take in Hc. rewrite replaceClass_nil_filter in Hc.
  apply list_elem_of_In, filter_In in Hc. destruct Hc as [_ Hc].
  by apply negb_true_iff.
Qed.

Lemma trim_forallb (P : N → bool) (s : jsstring) :
  forallb P s = true → forallb P (trim s) = true.
Proof.
  assert (Hstart : ∀ t : jsstring, forallb P t = true → forallb P (trimStart t) = true).
  { induction t as [|c t IH]; simpl; [done|].
    intros H. destruct (isWhiteSpace c); [|done].
    apply andb_prop in H. tauto. }
  assert (Hrev : ∀ t : jsstring, forallb P (reverse t) = forallb P t).
  { induction t as [|c t IH]; [done|].
    rewrite reverse_cons, forallb_app, IH. simpl.
    rewrite andb_true_r. apply andb_comm. }
  intros H. unfold trim, trimEnd. rewrite Hrev. apply Hstart.
  rewrite Hrev. by apply Hstart.
Qed.

(** A query that sanitizes to the empty string: nothing but white space
    and angle brackets around it. *)
Lemma sanitize_blank (q : jsstring) : blank q = true → sanitizeSearchQuery q = [].
Proof. intros H. apply trim_nil in H. unfold sanitizeSearchQuery. by rewrite H. Qed.

(** ** Validation *)

Lemma violates_present key limit (data : obj) s :
  data !! key = Some (JStr s) → violates key limit data = rejected limit s.
Proof.
  intros H. unfold violates, has, get, rejected. rewrite H.
  rewrite bool_decide_true by eauto. simpl.
  by rewrite nonempty_trim, negb_involutive.
Qed.

Lemma violates_absent key limit (data : obj) :
  data !! key = None → violates key limit data = false.
Proof.
  intros H. unfold violates, has. rewrite H.
  rewrite bool_decide_false; [done|]. by intros [? ?].
Qed.

Lemma violates_falsy key limit (data : obj) :
  truthy (get key data) = false → violates key limit data = false.
Proof. intros H. unfold violates. rewrite H. by rewrite andb_false_r. Qed.

Lemma obj_of_create_service c : obj_of_create c !! "service" = Some (JStr (c_service c)).
Proof. unfold obj_of_create. by simplify_map_eq. Qed.

Lemma obj_of_create_username c : obj_of_create c !! "username" = Some (JStr (c_username c)).
Proof. unfold obj_of_create. by simplify_map_eq. Qed.

Lemma obj_of_create_password c : obj_of_create c !! "password" = Some (JStr (c_password c)).
Proof. unfold obj_of_create. by simplify_map_eq. Qed.

(** [validatePasswordData] on a [CreatePasswordEntry], field by field. *)
Lemma validate_create c :
  validatePasswordData (obj_of_create c) =
    if rejected 100 (c_service c) then
      Throw (lit "Service name must be between 1-100 characters")
    else if rejected 100 (c_username c) then
      Throw (lit "Username must be between 1-100 characters")
    else if rejected 500 (c_password c) then
      Throw (lit "Password must be between 1-500 characters")
    else Normal ().
Proof.
  unfold validatePasswordData.
  rewrite (violates_present _ _ _ _ (obj_of_create_service c)).
  rewrite (violates_present _ _ _ _ (obj_of_create_username c)).
  by rewrite (violates_present _ _ _ _ (obj_of_create_password c)).
Qed.

Lemma validate_message (data : obj) e :
  validatePasswordData data = Throw e → nonempty e = true.
Proof.
  unfold validatePasswordData.
  repeat (case_match; [by intros [= <-]|]). done.
Qed.

(** An empty string is let through: the guard [data.service &&] skips it. *)
Lemma rejected_empty limit : rejected limit [] = false.
Proof. done. Qed.

(** ** The update payload *)

Lemma updateFieldsOf_lookup (passwordData : obj) key value :
  updateFieldsOf passwordData !! key = Some value
  ↔ passwordData !! key = Some value ∧ keeps value = true
    ∧ key ≠ "__proto__"%string.
Proof.
  unfold updateFieldsOf. revert key value.
  apply (map_fold_weak_ind (λ (acc m : obj), ∀ key value,
    acc !! key = Some value
    ↔ m !! key = Some value ∧ keeps value = true ∧ key ≠ "__proto__"%string)).
  - intros key value. rewrite lookup_empty. split; [done|by intros [? _]].
  - intros i x m acc Hi IH key value. unfold assign.
    destruct (decide (key = i)) as [->|Hne].
    + rewrite lookup_insert_eq. destruct (keeps x) eqn:Hx.
      * case_decide as Hp.
        -- rewrite IH, Hi. split; [by intros [? _]|by intros (_ & _ & ?)].
        -- rewrite lookup_insert_eq.
           split; [by intros [= <-]|by intros [? _]].
      * rewrite IH, Hi.
        split; [by intros [? _]|intros ([= ->] & ? & _); congruence].
    + rewrite lookup_insert_ne by done. destruct (keeps x).
      * case_decide; [apply IH|]. rewrite lookup_insert_ne by done. apply IH.
      * apply IH.
Qed.

(** X5: the [reduce] of [updatePassword] builds the object of the
    entries whose value passes its test and whose key is not [__proto__],
    the one key that the assignment to the accumulator does not set. *)
Lemma updateFieldsOf_filter (passwordData : obj) :
  updateFieldsOf passwordData
  = filter (λ kv, keeps kv.2 = true ∧ kv.1 ≠ "__proto__"%string) passwordData.
Proof.
  apply map_eq. intros key. apply option_eq. intros value.
  by rewrite updateFieldsOf_lookup, map_lookup_filter_Some.
Qed.

Lemma updateFieldsOf_empty (passwordData : obj) :
  size (updateFieldsOf passwordData) = 0
  ↔ ∀ key value, passwordData !! key = Some value
      → keeps value = false ∨ key = "__proto__"%string.
Proof.
  rewrite map_size_empty_iff. split.
  - intros H key value Hk. destruct (keeps value) eqn:Hv; [|by left].
    destruct (decide (key = "__proto__"%string)) as [|Hp]; [by right|].
    assert (updateFieldsOf passwordData !! key = Some value) as Hl
      by by apply updateFieldsOf_lookup.
    rewrite H, lookup_empty in Hl. done.
  - intros H. apply map_eq. intros key. rewrite lookup_empty.
    apply eq_None_not_Some. intros [value Hl].
    apply updateFieldsOf_lookup in Hl as (Hk & Hv & Hp).
    destruct (H _ _ Hk); congruence.
Qed.

(** A value is kept exactly when it is a string with something besides
    white space in it. *)
Lemma keeps_spec value :
  keeps value = true ↔ ∃ s, value = JStr s ∧ blank s = false.
Proof.
  unfold keeps. destruct value as [| |s]; simpl.
  - split; [done|]. by intros (? & ? & ?).
  - split; [done|]. by intros (? & ? & ?).
  - rewrite nonempty_trim, negb_true_iff. split.
    + intros H. by exists s.
    + by intros (? & [= <-] & ?).
Qed.

(** ** Conversion of rows *)

Lemma checkRequired_ok fields (row : obj) :
  checkRequired fields row = Normal ()
  ↔ ∀ field, field ∈ fields → truthy (get field row) = true.
Proof.
  induction fields as [|f fields IH]; simpl.
  - split; [|done]. intros _ field Hf. by apply elem_of_nil in Hf.
  - destruct (truthy (get f row)) eqn:Hf; simpl.
    + rewrite IH. split.
      * intros H field [->|Hin]%elem_of_cons; auto.
      * intros H field Hin. apply H. by right.
    + split; [done|]. intros H. specialize (H f (list_elem_of_here _ _)).
      congruence.
Qed.

Lemma checkRequired_throw fields (row : obj) e :
  checkRequired fields row = Throw e
  → ∃ field, field ∈ fields ∧ truthy (get field row) = false
             ∧ e = lit "Missing required field: " ++ lit field.
Proof.
  induction fields as [|f fields IH]; simpl; [done|].
  destruct (truthy (get f row)) eqn:Hf; simpl.
  - intros (field & Hin & H)%IH. exists field. split; [by right|done].
  - intros [= <-]. exists f. split; [by left|done].
Qed.

Lemma truthy_str v : truthy v = true → v = JStr (str_of v) ∧ str_of v ≠ [].
Proof. destruct v as [| |s]; simpl; try done. by destruct s. Qed.

(** On a row with every required column the conversion succeeds. *)
Lemma convert_complete (row : obj) :
  (∀ field, field ∈ requiredFields → truthy (get field row) = true)
  → convertFromDatabase (Some row)
    = Normal {| id := str_of (get "id" row);
                service := str_of (get "service" row);
                username := str_of (get "username" row);
                password := str_of (get "password" row);
                createdAt := str_of (get "created_at" row);
                updatedAt := str_of (get "updated_at" row) |}.
Proof.
  intros H. apply checkRequired_ok in H. unfold convertFromDatabase.
  by rewrite H.
Qed.

(** ** The service, operation by operation *)

Section ServiceProperties.

Context {World : Type}.
Variable remote : ∀ T, query T → World → response T * World.
Variable ERROR_MESSAGES : gmap string jsval.

Local Abbreviation wrapped := (wrapped ERROR_MESSAGES).
Local Abbreviation errorPrefix := (errorPrefix ERROR_MESSAGES).
Local Abbreviation caught := (caught ERROR_MESSAGES).
Local Abbreviation answered := (answered ERROR_MESSAGES).
Local Abbreviation addPassword := (addPassword remote ERROR_MESSAGES).
Local Abbreviation batchAddPasswords := (batchAddPasswords remote ERROR_MESSAGES).
Local Abbreviation updatePassword := (updatePassword remote ERROR_MESSAGES).
Local Abbreviation getAllPasswords := (getAllPasswords remote ERROR_MESSAGES).
Local Abbreviation searchPasswords := (searchPasswords remote ERROR_MESSAGES).

Ltac unfold_service :=
  unfold try_catch, mbind, M_bind, mret, M_ret, lift, throw, await,
    handleError; simpl.

Lemma wrapped_message operation (message : jsstring) :
  nonempty message = true
  → wrapped operation message = errorPrefix operation ++ lit ": " ++ message.
Proof. intros H. unfold SupabasePasswordService.wrapped, errorMessage. by rewrite H. Qed.

Lemma addPassword_eq c w :
  addPassword c w =
    match validatePasswordData (obj_of_create c) with
    | Throw e => Outcome (Throw (wrapped "ADD_FAILED" e)) w []
    | Normal _ =>
        let '(r, w') := remote _ (QInsertSingle [obj_of_create c]) w in
        Outcome (caught "ADD_FAILED" (answered "ADD_FAILED" convertFromDatabase r))
                w' [Call (QInsertSingle [obj_of_create c])]
    end.
Proof.
  unfold SupabasePasswordService.addPassword. unfold_service.
  destruct (validatePasswordData _); simpl; [|done].
  destruct (remote _ _ w) as [r w']. simpl.
  destruct r as [e|data n]; simpl; [done|].
  by destruct (convertFromDatabase data).
Qed.

Lemma getAllPasswords_eq w :
  getAllPasswords w =
    let '(r, w') := remote _ QSelectAll w in
    Outcome (caught "FETCH_FAILED" (answered "FETCH_FAILED" convertRows r))
            w' [Call QSelectAll].
Proof.
  unfold SupabasePasswordService.getAllPasswords. unfold_service.
  destruct (remote _ _ w) as [r w']. simpl.
  destruct r as [e|data n]; simpl; [done|].
  by destruct (convertRows data).
Qed.

Lemma searchPasswords_eq query w :
  searchPasswords query w =
    if nonempty (sanitizeSearchQuery query) then
      let q := QSearch (orFilterOf (sanitizeSearchQuery query)) in
      let '(r, w') := remote _ q w in
      Outcome (caught "SEARCH_FAILED" (answered "SEARCH_FAILED" convertRows r))
              w' [Call q]
    else getAllPasswords w.
Proof.
  unfold SupabasePasswordService.searchPasswords.
  destruct (nonempty (sanitizeSearchQuery query)); simpl; [|done].
  unfold_service.
  destruct (remote _ _ w) as [r w']. simpl.
  destruct r as [e|data n]; simpl; [done|].
  by destruct (convertRows data).
Qed.

Lemma updatePassword_eq rowId (passwordData : obj) w :
  updatePassword rowId passwordData w =
    if blank rowId then
      Outcome (Throw (wrapped "UPDATE_FAILED" (lit "Password ID is required"))) w []
    else
      match validatePasswordData passwordData with
      | Throw e => Outcome (Throw (wrapped "UPDATE_FAILED" e)) w []
      | Normal _ =>
          if bool_decide (size (updateFieldsOf passwordData) = 0) then
            Outcome (Throw (wrapped "UPDATE_FAILED" (lit "No valid fields to update")))
                    w []
          else
            let q := QUpdateSingle (updateFieldsOf passwordData) rowId in
            let '(r, w') := remote _ q w in
            Outcome (caught "UPDATE_FAILED"
                       (answered "UPDATE_FAILED" convertFromDatabase r))
                    w' [Call q]
      end.
Proof.
  unfold SupabasePasswordService.updatePassword. unfold_service.
  rewrite nonempty_trim, negb_involutive.
  destruct (blank rowId); simpl; [done|].
  destruct (validatePasswordData _); simpl; [|done].
  case_bool_decide; simpl; [done|].
  destruct (remote _ _ w) as [r w']. simpl.
  destruct r as [e|data n]; simpl; [done|].
  by destruct (convertFromDatabase data).
Qed.

Lemma validateEach_ok index passwords :
  validateEach index passwords = Normal ()
  ↔ Forall (λ pwd, validatePasswordData (obj_of_create pwd) = Normal ()) passwords.
Proof.
  revert index. induction passwords as [|pwd rest IH]; intros index; simpl.
  - split; [constructor|done].
  - rewrite Forall_cons. destruct (validatePasswordData _) as [[]|e].
    + rewrite IH. tauto.
    + split; [done|]. by intros [? _].
Qed.

Lemma batchAddPasswords_eq passwords w :
  batchAddPasswords passwords w =
    match passwords with
    | [] =>
        Outcome (Throw (wrapped "ADD_FAILED"
                          (lit "No passwords provided for batch insert"))) w []
    | _ =>
        match validateEach 0 passwords with
        | Throw e => Outcome (Throw (wrapped "ADD_FAILED" e)) w []
        | Normal _ =>
            let q := QInsertMany (obj_of_create <$> passwords) in
            let '(r, w') := remote _ q w in
            Outcome (caught "ADD_FAILED" (answered "ADD_FAILED" convertRows r))
                    w' [Call q]
        end
    end.
Proof.
  unfold SupabasePasswordService.batchAddPasswords. unfold_service.
  destruct passwords as [|pwd rest]; [done|].
  rewrite bool_decide_false by done. simpl.
  destruct (match validatePasswordData (obj_of_create pwd) with
            | Normal _ => _ | Throw _ => _ end); simpl; [|done].
  destruct (remote _ _ w) as [r w']. simpl.
  destruct r as [e|data n]; simpl; [done|].
  by destruct (convertRows data).
Qed.

(** *** Adding *)

Lemma addPassword_rejects c w e :
  validatePasswordData (obj_of_create c) = Throw e
  → addPassword c w
    = Outcome (Throw (errorPrefix "ADD_FAILED" ++ lit ": " ++ e)) w [].
Proof.
  intros H. rewrite addPassword_eq, H.
  by rewrite (wrapped_message _ _ (validate_message _ _ H)).
Qed.

Lemma addPassword_sends c w :
  validatePasswordData (obj_of_create c) = Normal ()
  → trace (addPassword c w) = [Call (QInsertSingle [obj_of_create c])].
Proof.
  intros H. rewrite addPassword_eq, H. by destruct (remote _ _ w).
Qed.

(** X1: a field that is white space only (and not empty) or too long
    makes [addPassword] fail before the remote is asked anything. *)
Lemma addPassword_refuses_blank_or_long c w :
  rejected 100 (c_service c) || rejected 100 (c_username c)
    || rejected 500 (c_password c) = true
  → (∃ e, result (addPassword c w) = Throw e)
    ∧ trace (addPassword c w) = [] ∧ after (addPassword c w) = w.
Proof.
  intros H. destruct (validatePasswordData (obj_of_create c)) as [[]|e] eqn:Hv.
  - rewrite validate_create in Hv.
    destruct (rejected 100 (c_service c)); [done|].
    destruct (rejected 100 (c_username c)); [done|].
    destruct (rejected 500 (c_password c)); done.
  - rewrite (addPassword_rejects _ _ _ Hv). eauto.
Qed.

(** C1, where the code departs from the claim: an entry whose service is
    the empty string violates the 1-100 character constraint, yet
    [validatePasswordData] lets it through (its guard [data.service &&]
    skips the empty string) and [addPassword] sends the insert to the
    remote instead of failing with a validation error. *)
Theorem addPassword_empty_service_is_sent w :
  length (c_service Sample.emptyService) = 0
  ∧ validatePasswordData (obj_of_create Sample.emptyService) = Normal ()
  ∧ trace (addPassword Sample.emptyService w)
    = [Call (QInsertSingle [obj_of_create Sample.emptyService])].
Proof.
  assert (validatePasswordData (obj_of_create Sample.emptyService) = Normal ())
    as Hv by (by rewrite validate_create).
  split; [done|]. split; [done|]. by apply addPassword_sends.
Qed.

(** *** Adding in a batch *)

(** X24: when any entry of the batch fails [validatePasswordData], the
    whole call to [batchAddPasswords] fails, no query is issued and the
    remote is left as it was; in particular no insert happens. *)
Theorem batchAdd_rejects_whole_batch passwords pwd w :
  pwd ∈ passwords
  → validatePasswordData (obj_of_create pwd) ≠ Normal ()
  → (∃ e, result (batchAddPasswords passwords w) = Throw e)
    ∧ trace (batchAddPasswords passwords w) = []
    ∧ after (batchAddPasswords passwords w) = w.
Proof.
  intros Hin Hbad. rewrite batchAddPasswords_eq.
  destruct passwords as [|p rest]; [by apply elem_of_nil in Hin|].
  destruct (validateEach 0 (p :: rest)) as [[]|e] eqn:Hv.
  - apply validateEach_ok in Hv. rewrite Forall_forall in Hv.
    by specialize (Hv pwd Hin).
  - eauto.
Qed.

(** X2: the insert of a batch is issued only once every entry has passed
    validation, and it carries every entry. *)
Lemma batchAdd_sends_only_validated passwords w :
  trace (batchAddPasswords passwords w) ≠ []
  → Forall (λ pwd, validatePasswordData (obj_of_create pwd) = Normal ()) passwords
    ∧ trace (batchAddPasswords passwords w)
      = [Call (QInsertMany (obj_of_create <$> passwords))].
Proof.
  rewrite batchAddPasswords_eq.
  destruct passwords as [|p rest]; [done|].
  destruct (validateEach 0 (p :: rest)) as [[]|e] eqn:Hv; [|done].
  apply validateEach_ok in Hv. intros _. split; [done|].
  cbv zeta. by destruct (remote _ _ w).
Qed.

(** *** Updating *)

(** C4: for an id that is not blank, [updatePassword] with an object
    without fields fails with the message "No valid fields to update"
    behind the prefix of the operation, issues no query and leaves the
    remote as it was. *)
Theorem update_without_fields_fails rowId w :
  blank rowId = false
  → updatePassword rowId ∅ w
    = Outcome (Throw (errorPrefix "UPDATE_FAILED" ++ lit ": No valid fields to update"))
              w [].
Proof.
  intros Hid. rewrite updatePassword_eq, Hid.
  assert (validatePasswordData ∅ = Normal ()) as -> by done.
  rewrite bool_decide_true; [done|].
  apply updateFieldsOf_empty. intros key value. by rewrite lookup_empty.
Qed.

(** X4: whatever the id, an update without fields fails before any
    query. *)
Lemma update_without_fields_no_query rowId w :
  (∃ e, result (updatePassword rowId ∅ w) = Throw e)
  ∧ trace (updatePassword rowId ∅ w) = [] ∧ after (updatePassword rowId ∅ w) = w.
Proof.
  rewrite updatePassword_eq. destruct (blank rowId); [eauto|].
  assert (validatePasswordData ∅ = Normal ()) as -> by done.
  rewrite bool_decide_true; [eauto|].
  apply updateFieldsOf_empty. intros key value. by rewrite lookup_empty.
Qed.

(** The only query [updatePassword] can issue. *)
Lemma updatePassword_trace rowId (passwordData : obj) w :
  trace (updatePassword rowId passwordData w) = []
  ∨ trace (updatePassword rowId passwordData w)
    = [Call (QUpdateSingle (updateFieldsOf passwordData) rowId)].
Proof.
  rewrite updatePassword_eq. destruct (blank rowId); [by left|].
  destruct (validatePasswordData passwordData); [|by left].
  case_bool_decide; [by left|]. right. cbv zeta. by destruct (remote _ _ w).
Qed.

(** C10 as amended: the payload of the update query holds exactly the
    supplied fields whose value is a string with something besides white
    space in it (undefined, null, empty and blank values are left out, and
    so is a property named [__proto__], which the assignment does not
    set), so no update sets a column to an empty or blank value; and an update
    whose supplied values are all left out fails before any query, with
    "No valid fields to update" when the id is not blank and validation
    passes, and with the validation error of the field otherwise. *)
Theorem update_payload_excludes_blank rowId (passwordData : obj) w :
  (∀ c, c ∈ trace (updatePassword rowId passwordData w)
     → c = Call (QUpdateSingle (updateFieldsOf passwordData) rowId))
  ∧ (∀ key value, updateFieldsOf passwordData !! key = Some value
       ↔ passwordData !! key = Some value ∧ keeps value = true
         ∧ key ≠ "__proto__"%string)
  ∧ (∀ key value, updateFieldsOf passwordData !! key = Some value
       → ∃ s, value = JStr s ∧ blank s = false ∧ s ≠ [])
  ∧ ((∀ key value, passwordData !! key = Some value → keeps value = false)
     → trace (updatePassword rowId passwordData w) = []
       ∧ after (updatePassword rowId passwordData w) = w
       ∧ result (updatePassword rowId passwordData w)
         = if blank rowId then
             Throw (errorPrefix "UPDATE_FAILED" ++ lit ": Password ID is required")
           else
             match validatePasswordData passwordData with
             | Throw e => Throw (errorPrefix "UPDATE_FAILED" ++ lit ": " ++ e)
             | Normal _ =>
                 Throw (errorPrefix "UPDATE_FAILED" ++ lit ": No valid fields to update")
             end).
Proof.
  split; [|split; [|split]].
  - intros c Hc. destruct (updatePassword_trace rowId passwordData w) as [H|H];
      rewrite H in Hc.
    + by apply elem_of_nil in Hc.
    + by apply list_elem_of_singleton in Hc.
  - apply updateFieldsOf_lookup.
  - intros key value (_ & Hk & _)%updateFieldsOf_lookup.
    apply keeps_spec in Hk as (s & -> & Hs). exists s. split; [done|].
    split; [done|]. by intros ->.
  - intros Hall.
    assert (size (updateFieldsOf passwordData) = 0) as Hsize
      by (apply updateFieldsOf_empty; intros key value Hk; left; eauto).
    clear Hall. rename Hsize into Hall.
    rewrite updatePassword_eq. destruct (blank rowId); [done|].
    destruct (validatePasswordData passwordData) as [[]|e] eqn:Hv.
    + by rewrite bool_decide_true.
    + by rewrite (wrapped_message _ _ (validate_message _ _ Hv)).
Qed.

(** *** Searching *)

(** C5: for a query that is empty or holds only white space,
    [searchPasswords] is [getAllPasswords]: the same query to the remote,
    the same records in the same order, the same failure. *)
Theorem search_blank_is_getAll query w :
  blank query = true → searchPasswords query w = getAllPasswords w.
Proof.
  intros H. rewrite searchPasswords_eq. by rewrite (sanitize_blank _ H).
Qed.

(** A query that sanitizes to something is sent as one [or] filter over
    [service] and [username], built from the sanitized text. *)
Lemma search_sends_sanitized query w :
  nonempty (sanitizeSearchQuery query) = true
  → trace (searchPasswords query w)
    = [Call (QSearch (orFilterOf (sanitizeSearchQuery query)))].
Proof.
  intros H. rewrite searchPasswords_eq, H. cbv zeta. by destruct (remote _ _ w).
Qed.

(** X23: the sanitized query has at most 100 code units and no
    angle bracket in it, the truncation being the last step; for a query
    without [%] and [_] it is the first 100 code units of the trimmed
    query with its angle brackets removed; when it is not empty it is the
    text the search query matches on, in one [or] filter over [service]
    and [username], and when it is empty the search is [getAllPasswords]. *)
Theorem sanitize_strips_then_truncates query w :
  length (sanitizeSearchQuery query) ≤ 100
  ∧ (∀ c, c ∈ sanitizeSearchQuery query → isAngle c = false)
  ∧ (forallb (λ c, negb (isWildcard c)) query = true
     → sanitizeSearchQuery query
       = take 100 (List.filter (λ c, negb (isAngle c)) (trim query)))
  ∧ (nonempty (sanitizeSearchQuery query) = true
     → trace (searchPasswords query w)
       = [Call (QSearch (orFilterOf (sanitizeSearchQuery query)))])
  ∧ (nonempty (sanitizeSearchQuery query) = false
     → searchPasswords query w = getAllPasswords w).
Proof.
  split; [apply sanitize_length|]. split; [apply sanitize_no_angle|].
  split; [|split].
  - intros H. unfold sanitizeSearchQuery, substring0.
    rewrite (replaceClass_id isWildcard) by by apply trim_forallb.
    by rewrite replaceClass_nil_filter.
  - apply search_sends_sanitized.
  - intros H. rewrite searchPasswords_eq. by rewrite H.
Qed.

End ServiceProperties.

(** ** Statistics *)

Section StatsProperties.

Context {World Date : Type}.
Variable remote : ∀ T, query T → World → response T * World.
Variable ERROR_MESSAGES : gmap string jsval.
Variable newDate : World → Date.
Variable minusDays : Date → nat → Date.
Variable toISOString : Date → jsstring.

Local Abbreviation getPasswordStats :=
  (getPasswordStats remote ERROR_MESSAGES newDate minusDays toISOString).
Local Abbreviation recentQuery := (recentQuery newDate minusDays toISOString).

Lemma getPasswordStats_eq w :
  getPasswordStats w =
    let '(r, w1) := remote _ QCount w in
    match r with
    | Failure _ =>
        Outcome (Normal {| total := 0; recentCount := 0 |}) w1 [Call QCount]
    | Success _ count =>
        let '(r', w2) := remote _ (recentQuery w1) w1 in
        Outcome (Normal {| total := default 0%N count;
                           recentCount := default 0%N (countOf r') |})
                w2 [Call QCount; Call (recentQuery w1)]
    end.
Proof.
  unfold SupabasePasswordService.getPasswordStats, SupabasePasswordService.recentQuery, try_catch, mbind, M_bind,
    mret, M_ret, lift, throw, await, handleError, now. simpl.
  destruct (remote _ QCount w) as [r w1]. simpl.
  destruct r as [e|data count]; simpl; [done|].
  by destruct (remote _ _ w1) as [r' w2].
Qed.

(** C8: when the query counting every row succeeds, [getPasswordStats]
    returns the count it reported as [total] and the count reported by the
    query restricted to rows created since seven days before now as
    [recentCount]; when that second query fails, [recentCount] is 0, the
    total is kept and the call still returns. *)
Theorem stats_keeps_total_when_recent_fails w data count w1 r' w2 :
  remote _ QCount w = (Success data count, w1)
  → remote _ (recentQuery w1) w1 = (r', w2)
  → getPasswordStats w
    = Outcome (Normal {| total := default 0%N count;
                         recentCount := match r' with
                                        | Failure _ => 0%N
                                        | Success _ recent => default 0%N recent
                                        end |})
              w2 [Call QCount; Call (recentQuery w1)].
Proof.
  intros H1 H2. rewrite getPasswordStats_eq, H1, H2. by destruct r'.
Qed.

(** X3: [getPasswordStats] never throws. *)
Lemma stats_always_returns w : ∃ stats, result (getPasswordStats w) = Normal stats.
Proof.
  rewrite getPasswordStats_eq. destruct (remote _ QCount w) as [[e|data count] w1].
  - eauto.
  - destruct (remote _ _ w1). eauto.
Qed.

End StatsProperties.

(** ** Conversion *)

Ltac in_list :=
  unfold requiredFields;
  repeat first [apply list_elem_of_here | apply list_elem_of_further].

(** C7: [convertFromDatabase] either fails or copies the six columns of
    the row into the record, [created_at] as [createdAt] and [updated_at]
    as [updatedAt]: a row on which a required column is absent makes it
    throw "Missing required field: ..." naming a required column, a null
    row makes it throw too, and a record it returns has every field
    present on the row, non-empty and equal to its column. *)
Theorem convert_renames_or_fails (row : obj) :
  (∀ field, field ∈ requiredFields → row !! field = None
     → ∃ missing, missing ∈ requiredFields
         ∧ convertFromDatabase (Some row)
           = Throw (lit "Missing required field: " ++ lit missing))
  ∧ (∀ e, convertFromDatabase (Some row) = Normal e
     → row !! "id" = Some (JStr (id e))
       ∧ row !! "service" = Some (JStr (service e))
       ∧ row !! "username" = Some (JStr (username e))
       ∧ row !! "password" = Some (JStr (password e))
       ∧ row !! "created_at" = Some (JStr (createdAt e))
       ∧ row !! "updated_at" = Some (JStr (updatedAt e))
       ∧ Forall (λ s, s ≠ [])
           [id e; service e; username e; password e; createdAt e; updatedAt e])
  ∧ ((∀ field, field ∈ requiredFields → truthy (get field row) = true)
     → ∃ e, convertFromDatabase (Some row) = Normal e)
  ∧ convertFromDatabase None = Throw (lit "Database row is null or undefined").
Proof.
  split; [|split; [|split; [|done]]].
  - intros field Hin Habsent. unfold convertFromDatabase.
    destruct (checkRequired requiredFields row) as [[]|e] eqn:Hc.
    + apply checkRequired_ok with (field := field) in Hc; [|done].
      unfold get in Hc. by rewrite Habsent in Hc.
    + apply checkRequired_throw in Hc as (missing & Hm & _ & ->). eauto.
  - intros e. unfold convertFromDatabase.
    destruct (checkRequired requiredFields row) as [[]|] eqn:Hc; [|done].
    simpl. intros [= <-]. simpl.
    assert (∀ field, field ∈ requiredFields
              → row !! field = Some (JStr (str_of (get field row)))
                ∧ str_of (get field row) ≠ []) as Hall.
    { intros field Hin. apply checkRequired_ok with (field := field) in Hc; [|done].
      apply truthy_str in Hc as [Hv Hne]. split; [|done].
      unfold get in *. destruct (row !! field); simpl in *; congruence. }
    repeat split; try (apply Hall; in_list).
    repeat (constructor; [apply Hall; in_list|]).
    constructor.
  - intros Hall. unfold convertFromDatabase.
    apply checkRequired_ok in Hall. rewrite Hall. simpl. eauto.
Qed.

(** ** Configuration *)

(** C9: [validateConfig] throws exactly when one of the two values is
    absent (or empty), with a message that lists the names of the absent
    ones and no other, in the order of the configuration object; loading
    the module then fails before the client is created, and when both
    values are there the check passes and the client is created. *)
Theorem validateConfig_lists_missing {Client : Type}
    (createClient : jsval → jsval → completion Client) (url key : jsval) :
  Config.validateConfig url key
  = match truthy url, truthy key with
    | true, true => Normal ()
    | false, true => Throw (lit "Missing environment variables: supabaseUrl")
    | true, false => Throw (lit "Missing environment variables: supabaseAnonKey")
    | false, false =>
        Throw (lit "Missing environment variables: supabaseUrl, supabaseAnonKey")
    end
  ∧ Config.loadModule createClient url key
    = match Config.validateConfig url key with
      | Normal _ => createClient url key
      | Throw e => Throw e
      end
  ∧ Config.validateConfig JUndefined key ≠ Normal ()
  ∧ Config.validateConfig url JUndefined ≠ Normal ().
Proof.
  split; [|split; [done|]].
  - unfold Config.validateConfig, Config.missingOf, Config.configEntries. simpl.
    by destruct (truthy url), (truthy key).
  - unfold Config.validateConfig, Config.missingOf, Config.configEntries. simpl.
    split; [by destruct (truthy key)|by destruct (truthy url)].
Qed.

(** ** Updating a stored record *)

Section HostedProperties.

Variable stamp : N → jsstring.
Variable other : ∀ T, query T → hosted → response T * hosted.
Variable ERROR_MESSAGES : gmap string jsval.

Local Abbreviation updatePassword :=
  (updatePassword (hosted_remote stamp other) ERROR_MESSAGES).

Lemma typed_no_proto (passwordData : obj) :
  isUpdatePasswordEntry passwordData → passwordData !! "__proto__"%string = None.
Proof.
  intros Ht. apply eq_None_not_Some. intros Hk. apply Ht in Hk.
  repeat (apply elem_of_cons in Hk as [Hk|Hk]; [done|]).
  by apply elem_of_nil in Hk.
Qed.

Lemma updateFieldsOf_get (passwordData : obj) key :
  isUpdatePasswordEntry passwordData
  → updateFieldsOf passwordData !! key
    = if keeps (get key passwordData) then Some (get key passwordData) else None.
Proof.
  intros Ht. unfold get. destruct (passwordData !! key) as [v|] eqn:Hk; simpl.
  - destruct (keeps v) eqn:Hv.
    + apply updateFieldsOf_lookup. split; [done|]. split; [done|].
      intros ->. by rewrite (typed_no_proto _ Ht) in Hk.
    + apply eq_None_not_Some. intros [v' (Hk' & Hv' & _)%updateFieldsOf_lookup].
      congruence.
  - apply eq_None_not_Some. intros [v' (Hk' & Hv' & _)%updateFieldsOf_lookup].
    congruence.
Qed.

Lemma refreshed_updated_at fields t (row : obj) :
  get "updated_at" (refreshed stamp fields t row) = JStr (stamp t).
Proof. unfold get, refreshed. by rewrite lookup_insert_eq. Qed.

(** A column other than [updated_at] takes the value sent for it, and
    keeps its own when none is sent. *)
Lemma refreshed_column (passwordData : obj) t (row : obj) key :
  isUpdatePasswordEntry passwordData
  → key ≠ "updated_at"%string
  → get key (refreshed stamp (updateFieldsOf passwordData) t row)
    = if keeps (get key passwordData) then get key passwordData else get key row.
Proof.
  intros Ht Hne. unfold refreshed.
  unfold get at 1. rewrite lookup_insert_ne by done.
  destruct (keeps (get key passwordData)) eqn:Hk.
  - erewrite lookup_union_Some_l; [done|]. by rewrite updateFieldsOf_get, Hk.
  - rewrite lookup_union_r; [done|]. by rewrite updateFieldsOf_get, Hk.
Qed.

Lemma hosted_remote_update fields rowId w :
  hosted_remote stamp other _ (QUpdateSingle fields rowId) w
  = hosted_update stamp fields rowId w.
Proof. done. Qed.

Lemma keeps_truthy v : keeps v = true → truthy v = true.
Proof. intros (s & -> & Hs)%keeps_spec. by destruct s. Qed.

Lemma untyped_key_absent (passwordData : obj) key :
  isUpdatePasswordEntry passwordData
  → key ∉ ["service"; "username"; "password"]%string
  → keeps (get key passwordData) = false.
Proof.
  intros Ht Hk. unfold get. destruct (passwordData !! key) eqn:E; [|done].
  destruct Hk. apply Ht. by rewrite E.
Qed.

Lemma str_ltb_nonempty (a b : jsstring) : str_ltb a b = true → nonempty b = true.
Proof. by destruct a, b. Qed.

(** Replacing the rows of an id by a row of that id leaves one row of
    that id where there was one. *)
Lemma filter_replaced rowId (row' : obj) (table : list obj) :
  matches rowId row' = true
  → List.filter (matches rowId)
      ((λ r, if matches rowId r then row' else r) <$> table)
    = (λ _, row') <$> List.filter (matches rowId) table.
Proof.
  intros Hm. induction table as [|r table IH]; [done|]. cbn [fmap list_fmap].
  cbn [List.filter]. destruct (matches rowId r) eqn:Hr.
  - rewrite Hm. cbn [fmap list_fmap]. f_equal. apply IH.
  - rewrite Hr. apply IH.
Qed.

(** C6: on a table where exactly one row has the given id, a valid update
    with at least one field to send issues one update query and returns
    the record of that row with the same [id] and [createdAt], with
    [service], [username] and [password] equal to the value supplied where
    one was supplied (and kept) and to the stored value otherwise, and
    with an [updatedAt] that is greater, as a string, than the stored
    one; the table afterwards holds that record in place of the row, and
    every other row as it was. *)
Theorem update_moves_only_supplied_fields rowId (passwordData : obj) w row t0 :
  blank rowId = false
  → validatePasswordData passwordData = Normal ()
  → isUpdatePasswordEntry passwordData
  → size (updateFieldsOf passwordData) ≠ 0
  → List.filter (matches rowId) (rows w) = [row]
  → (∀ field, field ∈ requiredFields → truthy (get field row) = true)
  → get "updated_at" row = JStr (stamp t0)
  → (t0 ≤ clock w)%N
  → (∀ a b, (a < b)%N → str_ltb (stamp a) (stamp b) = true)
  → ∃ e row',
      updatePassword rowId passwordData w
      = Outcome (Normal e)
          (Hosted ((λ r, if matches rowId r then row' else r) <$> rows w)
                  (clock w + 1))
          [Call (QUpdateSingle (updateFieldsOf passwordData) rowId)]
      ∧ convertFromDatabase (Some row') = Normal e
      ∧ List.filter (matches rowId)
          (rows (after (updatePassword rowId passwordData w))) = [row']
      ∧ id e = rowId
      ∧ createdAt e = str_of (get "created_at" row)
      ∧ service e = str_of (if keeps (get "service" passwordData)
                            then get "service" passwordData else get "service" row)
      ∧ username e = str_of (if keeps (get "username" passwordData)
                             then get "username" passwordData else get "username" row)
      ∧ password e = str_of (if keeps (get "password" passwordData)
                             then get "password" passwordData else get "password" row)
      ∧ updatedAt e = stamp (clock w + 1)
      ∧ str_ltb (str_of (get "updated_at" row)) (updatedAt e) = true.
Proof.
  intros Hid Hv Ht Hsize Hrow Hfull Hold Hclock Hmono.
  assert (str_ltb (stamp t0) (stamp (clock w + 1)) = true) as Hlater
    by (apply Hmono; lia).
  pose proof (str_ltb_nonempty _ _ Hlater) as Hstamp.
  set (row' := refreshed stamp (updateFieldsOf passwordData) (clock w + 1) row).
  assert (get "id" row = JStr rowId) as Hrid.
  { assert (row ∈ List.filter (matches rowId) (rows w)) as Hin
      by (rewrite Hrow; apply list_elem_of_here).
    apply list_elem_of_In, filter_In in Hin as [_ Hm].
    unfold matches in Hm. by apply bool_decide_eq_true in Hm. }
  assert (∀ field, field ∈ requiredFields → truthy (get field row') = true) as Hfull'.
  { intros field Hf. destruct (decide (field = "updated_at"%string)) as [->|Hne].
    - unfold row'. by rewrite refreshed_updated_at.
    - unfold row'. rewrite refreshed_column by done.
      destruct (keeps (get field passwordData)) eqn:Hk; [by apply keeps_truthy|auto]. }
  assert (get "id" row' = JStr rowId) as Hrid'.
  { unfold row'. rewrite refreshed_column by done.
    rewrite (untyped_key_absent _ _ Ht); [done|].
    intros Hk. repeat (apply elem_of_cons in Hk as [Hk|Hk]; [done|]).
    by apply elem_of_nil in Hk. }
  assert (updatePassword rowId passwordData w
          = Outcome (Normal (entryOfRow row'))
              (Hosted ((λ r, if matches rowId r then row' else r) <$> rows w)
                      (clock w + 1))
              [Call (QUpdateSingle (updateFieldsOf passwordData) rowId)]) as Hrun.
  { rewrite updatePassword_eq, Hid, Hv. rewrite bool_decide_false by done.
    cbv zeta. rewrite hosted_remote_update. unfold hosted_update. rewrite Hrow.
    cbv beta iota zeta. unfold answered. fold row'.
    rewrite (convert_complete _ Hfull'). cbn [caught]. do 2 f_equal.
    apply list_fmap_ext. intros i r Hr.
    destruct (matches rowId r) eqn:Hm; [|done].
    assert (r ∈ List.filter (matches rowId) (rows w)) as Hin.
    { apply list_elem_of_In, filter_In. split; [|done].
      apply list_elem_of_In. by eapply list_elem_of_lookup_2. }
    rewrite Hrow in Hin. by apply list_elem_of_singleton in Hin as ->. }
  exists (entryOfRow row'), row'. rewrite Hrun.
  split; [done|]. split; [by rewrite (convert_complete _ Hfull')|].
  split.
  { cbn [after rows]. rewrite filter_replaced.
    - by rewrite Hrow.
    - unfold matches. by rewrite Hrid', bool_decide_true. }
  cbn [entryOfRow id createdAt service username password updatedAt].
  rewrite Hrid'. unfold row'. rewrite !refreshed_column by done.
  rewrite refreshed_updated_at.
  rewrite (untyped_key_absent _ "created_at"%string Ht) by
    (intros Hk; repeat (apply elem_of_cons in Hk as [Hk|Hk]; [done|]);
     by apply elem_of_nil in Hk).
  rewrite Hold. cbn [str_of]. done.
Qed.

End HostedProperties.

(** * Closed instances *)

(** ** Where the code and the wording part *)

Example sanitize_brackets :
  sanitizeSearchQuery Sample.brackets = lit "a"
  ∧ sanitizeAsWorded Sample.brackets = [].
Proof. by vm_compute. Qed.

(** The order of the steps shows: truncating to 100 before stripping
    gives another result than the code, which truncates last; on 100
    times [<] followed by [a] the code keeps [a] and the other order
    keeps nothing. *)
Lemma sanitize_not_as_worded :
  ¬ (∀ query, sanitizeSearchQuery query = sanitizeAsWorded query).
Proof.
  intros H. specialize (H Sample.brackets).
  destruct sanitize_brackets as [Hcode Hworded].
  rewrite Hcode, Hworded in H. discriminate H.
Qed.

(** What the first [replace] makes of a wildcard: the character is
    dropped and the fixed replacement text stands in its place. *)
Example sanitize_percent :
  sanitizeSearchQuery (lit "50%") = lit "50\04159cb3-9186-4414-9c28-af252a86395a"
  ∧ sanitizeAsWorded (lit "50%") = lit "50\%".
Proof. by vm_compute. Qed.

Example update_blank_service :
  updatePassword (@offline ()) Sample.messages (lit "r1") Sample.blankUpdate ()
  = Outcome (Throw (lit "Could not update password: Service name must be between 1-100 characters"))
            () [].
Proof. by vm_compute. Qed.

(** C10, the claim as worded fails: an update whose only supplied field
    is a blank [service] fails with the validation error of that field,
    not with "No valid fields to update". *)
Lemma update_blank_field_other_error :
  ¬ (∀ rowId (passwordData : obj),
       blank rowId = false
       → (∀ key value, passwordData !! key = Some value → keeps value = false)
       → result (updatePassword (@offline ()) Sample.messages rowId passwordData ())
         = Throw (errorPrefix Sample.messages "UPDATE_FAILED"
                  ++ lit ": No valid fields to update")).
Proof.
  intros H. specialize (H (lit "r1") Sample.blankUpdate eq_refl).
  rewrite update_blank_service in H.
  assert (∀ key value, Sample.blankUpdate !! key = Some value → keeps value = false)
    as Hblank.
  { unfold Sample.blankUpdate. by intros key value [<- <-]%lookup_singleton_Some. }
  specialize (H Hblank). vm_compute in H. discriminate H.
Qed.

(** ** Instances of the theorems *)

Lemma sanitize_strips_then_truncates_witness :
  trace (searchPasswords (@offline ()) Sample.messages (lit "  <b>git</b> ") ())
  = [Call (QSearch (orFilterOf (sanitizeSearchQuery (lit "  <b>git</b> "))))].
Proof.
  apply (sanitize_strips_then_truncates
           (@offline ()) Sample.messages (lit "  <b>git</b> ") ()).
  reflexivity.
Defined.

Lemma batchAdd_rejects_whole_batch_witness :
  (∃ e, result (batchAddPasswords (@offline ()) Sample.messages Sample.batch ())
        = Throw e)
  ∧ trace (batchAddPasswords (@offline ()) Sample.messages Sample.batch ()) = []
  ∧ after (batchAddPasswords (@offline ()) Sample.messages Sample.batch ()) = ().
Proof.
  apply (batchAdd_rejects_whole_batch
           (@offline ()) Sample.messages Sample.batch Sample.blankService ()).
  - unfold Sample.batch. in_list.
  - rewrite validate_create. discriminate.
Defined.

Lemma update_without_fields_fails_witness :
  updatePassword (@offline ()) Sample.messages (lit "r1") ∅ ()
  = Outcome (Throw (errorPrefix Sample.messages "UPDATE_FAILED"
                    ++ lit ": No valid fields to update")) () [].
Proof.
  apply (update_without_fields_fails (@offline ()) Sample.messages (lit "r1") ()).
  reflexivity.
Defined.

Lemma search_blank_is_getAll_witness :
  searchPasswords (@offline ()) Sample.messages (lit "   ") ()
  = getAllPasswords (@offline ()) Sample.messages ().
Proof.
  apply (search_blank_is_getAll (@offline ()) Sample.messages (lit "   ") ()).
  reflexivity.
Defined.

Lemma tally_monotone a b :
  (a < b)%N → str_ltb (Fixture.tally a) (Fixture.tally b) = true.
Proof.
  intros H. unfold Fixture.tally.
  assert (N.to_nat a < N.to_nat b) as Hlt by lia.
  generalize dependent (N.to_nat b). generalize (N.to_nat a). clear.
  induction n as [|n IH]; intros [|m] Hlt; try lia;
    cbn [replicate str_ltb]; rewrite N.eqb_refl, N.ltb_irrefl; simpl.
  - by destruct m; [lia|].
  - apply (IH m). lia.
Qed.

Lemma update_moves_only_supplied_fields_witness :
  ∃ e row',
    updatePassword (hosted_remote Fixture.tally countOnly) Sample.messages
      (lit "n1") Sample.newPassword Fixture.table
    = Outcome (Normal e)
        (Hosted ((λ r, if matches (lit "n1") r then row' else r)
                   <$> [Sample.email; Fixture.note]) 8)
        [Call (QUpdateSingle (updateFieldsOf Sample.newPassword) (lit "n1"))]
    ∧ convertFromDatabase (Some row') = Normal e
    ∧ List.filter (matches (lit "n1"))
        (rows (after (updatePassword (hosted_remote Fixture.tally countOnly)
                        Sample.messages (lit "n1") Sample.newPassword
                        Fixture.table))) = [row']
    ∧ id e = lit "n1"
    ∧ createdAt e = Fixture.tally 2
    ∧ service e = lit "Forum"
    ∧ username e = lit "carol"
    ∧ password e = lit "q"
    ∧ updatedAt e = Fixture.tally 8
    ∧ str_ltb (Fixture.tally 4) (updatedAt e) = true.
Proof.
  apply (update_moves_only_supplied_fields Fixture.tally countOnly Sample.messages
           (lit "n1") Sample.newPassword Fixture.table Fixture.note 4%N).
  - reflexivity.
  - reflexivity.
  - unfold Sample.newPassword.
    intros key [value [<- _]%lookup_singleton_Some]. in_list.
  - intros H. vm_compute in H. discriminate H.
  - reflexivity.
  - intros field H.
    repeat (apply elem_of_cons in H as [->|H]; [reflexivity|]).
    by apply elem_of_nil in H.
  - reflexivity.
  - vm_compute. discriminate.
  - apply tally_monotone.
Defined.

Lemma convert_renames_or_fails_witness :
  ∃ missing, missing ∈ requiredFields
    ∧ convertFromDatabase (Some Sample.partial)
      = Throw (lit "Missing required field: " ++ lit missing).
Proof.
  apply (convert_renames_or_fails Sample.partial) with (field := "password"%string).
  - in_list.
  - reflexivity.
Defined.

Lemma stats_keeps_total_when_recent_fails_witness :
  getPasswordStats Sample.remote Sample.messages Sample.today Sample.daysBefore
    Sample.stamp Sample.world
  = Outcome (Normal {| total := 1; recentCount := 0 |}) Sample.world
      [Call QCount; Call (QCountGte "created_at" (Sample.stamp 0))].
Proof.
  apply (stats_keeps_total_when_recent_fails Sample.remote Sample.messages
           Sample.today Sample.daysBefore Sample.stamp
           Sample.world None (Some 1%N) Sample.world
           (Failure (lit "Failed to fetch")) Sample.world).
  - reflexivity.
  - reflexivity.
Defined.

Lemma update_payload_excludes_blank_witness :
  trace (updatePassword (@offline ()) Sample.messages (lit "r1") Sample.blankUpdate ())
  = []
  ∧ after (updatePassword (@offline ()) Sample.messages (lit "r1") Sample.blankUpdate ())
    = ()
  ∧ result (updatePassword (@offline ()) Sample.messages (lit "r1") Sample.blankUpdate ())
    = Throw (lit "Could not update password: Service name must be between 1-100 characters").
Proof.
  apply (update_payload_excludes_blank
           (@offline ()) Sample.messages (lit "r1") Sample.blankUpdate ()).
  unfold Sample.blankUpdate at 1.
  intros key value [<- <-]%lookup_singleton_Some. reflexivity.
Defined.

Lemma addPassword_refuses_blank_or_long_witness :
  (∃ e, result (addPassword (@offline ()) Sample.messages Sample.blankService ())
        = Throw e)
  ∧ trace (addPassword (@offline ()) Sample.messages Sample.blankService ()) = []
  ∧ after (addPassword (@offline ()) Sample.messages Sample.blankService ()) = ().
Proof.
  apply (addPassword_refuses_blank_or_long
           (@offline ()) Sample.messages Sample.blankService ()).
  reflexivity.
Defined.

Lemma batchAdd_sends_only_validated_witness :
  Forall (λ pwd, validatePasswordData (obj_of_create pwd) = Normal ()) [Sample.good]
  ∧ trace (batchAddPasswords (@offline ()) Sample.messages [Sample.good] ())
    = [Call (QInsertMany (obj_of_create <$> [Sample.good]))].
Proof.
  apply (batchAdd_sends_only_validated (@offline ()) Sample.messages [Sample.good] ()).
  rewrite batchAddPasswords_eq. discriminate.
Defined.

(** * Further properties of the service *)

Section ServiceFurther.

Context {World : Type}.
Variable remote : ∀ T, query T → World → response T * World.
Variable ERROR_MESSAGES : gmap string jsval.

Local Abbreviation wrapped := (wrapped ERROR_MESSAGES).
Local Abbreviation errorPrefix := (errorPrefix ERROR_MESSAGES).
Local Abbreviation caught := (caught ERROR_MESSAGES).
Local Abbreviation answered := (answered ERROR_MESSAGES).
Local Abbreviation addPassword := (addPassword remote ERROR_MESSAGES).
Local Abbreviation batchAddPasswords := (batchAddPasswords remote ERROR_MESSAGES).
Local Abbreviation updatePassword := (updatePassword remote ERROR_MESSAGES).
Local Abbreviation deletePassword := (deletePassword remote ERROR_MESSAGES).
Local Abbreviation getAllPasswords := (getAllPasswords remote ERROR_MESSAGES).
Local Abbreviation searchPasswords := (searchPasswords remote ERROR_MESSAGES).

Lemma deletePassword_eq rowId w :
  deletePassword rowId w =
    if blank rowId then
      Outcome (Throw (wrapped "DELETE_FAILED" (lit "Password ID is required"))) w []
    else
      let '(r, w') := remote _ (QDelete rowId) w in
      Outcome (caught "DELETE_FAILED"
                 (answered "DELETE_FAILED" (λ _, Normal ()) r))
              w' [Call (QDelete rowId)].
Proof.
  unfold SupabasePasswordService.deletePassword, try_catch, mbind, M_bind,
    mret, M_ret, lift, throw, await, handleError. simpl.
  rewrite nonempty_trim, negb_involutive.
  destruct (blank rowId); simpl; [done|].
  destruct (remote _ _ w) as [r w']. simpl.
  by destruct r as [e|data n].
Qed.

(** X6: [deletePassword] asks the remote nothing for a blank id and fails
    with "Password ID is required"; for any other id it issues exactly one
    delete of that id, and returns exactly when the remote reports
    success. *)
Theorem deletePassword_guards_blank_id rowId w :
  (blank rowId = true
   → deletePassword rowId w
     = Outcome (Throw (errorPrefix "DELETE_FAILED" ++ lit ": Password ID is required"))
               w [])
  ∧ (blank rowId = false
     → trace (deletePassword rowId w) = [Call (QDelete rowId)]
       ∧ after (deletePassword rowId w) = (remote _ (QDelete rowId) w).2
       ∧ (result (deletePassword rowId w) = Normal ()
          ↔ ∃ data count, (remote _ (QDelete rowId) w).1 = Success data count)).
Proof.
  rewrite deletePassword_eq. split; intros ->; [done|].
  destruct (remote _ _ w) as [[e|data count] w']; simpl.
  - split; [done|]. split; [done|]. split; [done|]. by intros (? & ? & ?).
  - split; [done|]. split; [done|]. split; [eauto|done].
Qed.

Lemma caught_prefixed {A} operation (c : completion A) e :
  caught operation c = Throw e → hasPrefix ERROR_MESSAGES operation e.
Proof. destruct c; [done|]. intros [= <-]. by eexists. Qed.

(** X7: whatever makes an operation fail, the message of the error it
    throws starts with the prefix of that operation and ": "; a search
    whose query sanitizes to nothing fails as [getAllPasswords] does. *)
Theorem failures_carry_operation_prefix w :
  (∀ e, result (getAllPasswords w) = Throw e
      → hasPrefix ERROR_MESSAGES "FETCH_FAILED" e)
  ∧ (∀ query e, result (searchPasswords query w) = Throw e
      → hasPrefix ERROR_MESSAGES
          (if nonempty (sanitizeSearchQuery query)
           then "SEARCH_FAILED" else "FETCH_FAILED") e)
  ∧ (∀ c e, result (addPassword c w) = Throw e
      → hasPrefix ERROR_MESSAGES "ADD_FAILED" e)
  ∧ (∀ passwords e, result (batchAddPasswords passwords w) = Throw e
      → hasPrefix ERROR_MESSAGES "ADD_FAILED" e)
  ∧ (∀ rowId passwordData e, result (updatePassword rowId passwordData w) = Throw e
      → hasPrefix ERROR_MESSAGES "UPDATE_FAILED" e)
  ∧ (∀ rowId e, result (deletePassword rowId w) = Throw e
      → hasPrefix ERROR_MESSAGES "DELETE_FAILED" e).
Proof.
  assert (Hall : ∀ e, result (getAllPasswords w) = Throw e
                   → hasPrefix ERROR_MESSAGES "FETCH_FAILED" e).
  { intros e. rewrite getAllPasswords_eq. destruct (remote _ _ w) as [r w'].
    apply caught_prefixed. }
  split; [done|]. split; [|split; [|split; [|split]]].
  - intros query e. rewrite searchPasswords_eq.
    destruct (nonempty (sanitizeSearchQuery query)); [|apply Hall].
    cbv zeta. destruct (remote _ _ w) as [r w']. apply caught_prefixed.
  - intros c e. rewrite addPassword_eq.
    destruct (validatePasswordData _).
    + destruct (remote _ _ w) as [r w']. apply caught_prefixed.
    + intros [= <-]. by eexists.
  - intros passwords e. rewrite batchAddPasswords_eq.
    destruct passwords as [|p rest]; [intros [= <-]; by eexists|].
    destruct (validateEach 0 (p :: rest)).
    + cbv zeta. destruct (remote _ _ w) as [r w']. apply caught_prefixed.
    + intros [= <-]. by eexists.
  - intros rowId passwordData e. rewrite updatePassword_eq.
    destruct (blank rowId); [intros [= <-]; by eexists|].
    destruct (validatePasswordData passwordData); [|intros [= <-]; by eexists].
    case_bool_decide; [intros [= <-]; by eexists|].
    cbv zeta. destruct (remote _ _ w) as [r w']. apply caught_prefixed.
  - intros rowId e. rewrite deletePassword_eq.
    destruct (blank rowId); [intros [= <-]; by eexists|].
    destruct (remote _ _ w) as [r w']. apply caught_prefixed.
Qed.

(** X8: an error reported by the remote comes back with the prefix of the
    operation twice, because [handleError] throws inside the [try] block
    and the [catch] of the same operation hands the error to [handleError]
    again; an empty remote message reads "Unknown error". *)
Theorem remote_failure_prefixed_twice w e w' :
  (remote _ QSelectAll w = (Failure e, w')
   → result (getAllPasswords w)
     = Throw (errorPrefix "FETCH_FAILED" ++ lit ": " ++ errorPrefix "FETCH_FAILED"
              ++ lit ": " ++ errorMessage e))
  ∧ (∀ c, validatePasswordData (obj_of_create c) = Normal ()
      → remote _ (QInsertSingle [obj_of_create c]) w = (Failure e, w')
      → result (addPassword c w)
        = Throw (errorPrefix "ADD_FAILED" ++ lit ": " ++ errorPrefix "ADD_FAILED"
                 ++ lit ": " ++ errorMessage e))
  ∧ (∀ rowId, blank rowId = false
      → remote _ (QDelete rowId) w = (Failure e, w')
      → result (deletePassword rowId w)
        = Throw (errorPrefix "DELETE_FAILED" ++ lit ": " ++ errorPrefix "DELETE_FAILED"
                 ++ lit ": " ++ errorMessage e))
  ∧ errorMessage [] = lit "Unknown error".
Proof.
  assert (Htwice : ∀ operation,
    wrapped operation (wrapped operation e)
    = errorPrefix operation ++ lit ": " ++ errorPrefix operation
      ++ lit ": " ++ errorMessage e).
  { intros operation. rewrite wrapped_message; [done|].
    unfold SupabasePasswordService.wrapped.
    by destruct (SupabasePasswordService.errorPrefix _ _). }
  split; [|split; [|split; [|done]]].
  - intros H. rewrite getAllPasswords_eq, H. simpl. by rewrite Htwice.
  - intros c Hv H. rewrite addPassword_eq, Hv, H. simpl. by rewrite Htwice.
  - intros rowId Hid H. rewrite deletePassword_eq, Hid, H. simpl.
    by rewrite Htwice.
Qed.

End ServiceFurther.

Lemma rejected_false limit (s : jsstring) :
  rejected limit s = false ↔ s = [] ∨ (blank s = false ∧ length s ≤ limit).
Proof.
  unfold rejected. destruct s as [|c s]; simpl; [by split; [left|]|].
  rewrite orb_false_iff, Nat.ltb_ge. split; [by right|].
  by intros [?|?].
Qed.

Lemma violates_false key limit (data : obj) :
  violates key limit data = false
  ↔ ∀ s, data !! key = Some (JStr s) → s = [] ∨ (blank s = false ∧ length s ≤ limit).
Proof.
  destruct (data !! key) as [[| |s]|] eqn:Hk.
  - rewrite violates_falsy by (unfold get; by rewrite Hk). by split.
  - rewrite violates_falsy by (unfold get; by rewrite Hk). by split.
  - rewrite (violates_present _ _ _ _ Hk), rejected_false. split.
    + by intros H s' [= <-].
    + intros H. by apply H.
  - rewrite violates_absent by done. by split.
Qed.

(** X9: [validatePasswordData] accepts an object exactly when each of
    [service], [username] and [password] that holds a string holds the
    empty string or a string that is not blank and within the limit of the
    field; an absent, undefined, null or empty field is never refused. *)
Theorem validate_accepts_iff (data : obj) :
  validatePasswordData data = Normal ()
  ↔ ∀ key limit s, (key, limit) ∈ limits
      → data !! key = Some (JStr s)
      → s = [] ∨ (blank s = false ∧ length s ≤ limit).
Proof.
  unfold validatePasswordData, limits. split.
  - intros H key limit s Hin.
    destruct (violates "service" 100 data) eqn:H1; [done|].
    destruct (violates "username" 100 data) eqn:H2; [done|].
    destruct (violates "password" 500 data) eqn:H3; [done|].
    repeat (apply elem_of_cons in Hin as [[= -> ->]|Hin];
            [by apply violates_false|]).
    by apply elem_of_nil in Hin.
  - intros H.
    assert (∀ key limit, (key, limit) ∈ limits → violates key limit data = false)
      as Hv.
    { intros key limit Hin. apply violates_false. intros s. by apply H. }
    rewrite !Hv; [done|..]; unfold limits;
      repeat first [apply list_elem_of_here | apply list_elem_of_further].
Qed.

Section ServiceBatches.

Context {World : Type}.
Variable remote : ∀ T, query T → World → response T * World.
Variable ERROR_MESSAGES : gmap string jsval.

Local Abbreviation errorPrefix := (errorPrefix ERROR_MESSAGES).
Local Abbreviation batchAddPasswords := (batchAddPasswords remote ERROR_MESSAGES).
Local Abbreviation getAllPasswords := (getAllPasswords remote ERROR_MESSAGES).

Lemma validateEach_first index valid bad rest e :
  Forall (λ pwd, validatePasswordData (obj_of_create pwd) = Normal ()) valid
  → validatePasswordData (obj_of_create bad) = Throw e
  → validateEach index (valid ++ bad :: rest)
    = Throw (lit "Validation failed for password "
             ++ lit (pretty (index + length valid + 1)) ++ lit ": Error: " ++ e).
Proof.
  intros Hvalid Hbad. revert index.
  induction Hvalid as [|pwd valid Hpwd _ IH]; intros index; simpl.
  - rewrite Hbad. unfold error_toString.
    rewrite (validate_message _ _ Hbad). by rewrite Nat.add_0_r.
  - rewrite Hpwd, IH.
    by replace (S index + length valid + 1) with (index + S (length valid) + 1)
      by lia.
Qed.

(** X10: when the entries before some position pass validation and the
    entry at that position does not, [batchAddPasswords] fails before any
    query with a message that gives that position, counted from 1, and
    the validation message of that entry. *)
Theorem batchAdd_names_first_invalid valid bad rest e w :
  Forall (λ pwd, validatePasswordData (obj_of_create pwd) = Normal ()) valid
  → validatePasswordData (obj_of_create bad) = Throw e
  → batchAddPasswords (valid ++ bad :: rest) w
    = Outcome (Throw (errorPrefix "ADD_FAILED"
                      ++ lit ": Validation failed for password "
                      ++ lit (pretty (length valid + 1))
                      ++ lit ": Error: " ++ e))
              w [].
Proof.
  intros Hvalid Hbad. rewrite batchAddPasswords_eq.
  rewrite (validateEach_first 0 _ _ rest _ Hvalid Hbad).
  destruct (valid ++ bad :: rest) eqn:E; [by destruct valid|].
  by rewrite wrapped_message.
Qed.

Lemma convert_incomplete (row : obj) :
  ¬ complete row → ∃ e, convertFromDatabase (Some row) = Throw e.
Proof.
  intros H. unfold convertFromDatabase.
  destruct (checkRequired requiredFields row) as [[]|e] eqn:Hc; [|eauto].
  destruct H. exact (proj1 (checkRequired_ok _ _) Hc).
Qed.

Lemma convertRows_complete rows :
  Forall complete rows → convertRows (Some rows) = Normal (entryOfRow <$> rows).
Proof.
  unfold convertRows. cbn [from_option Datatypes.id].
  induction 1 as [|row rows Hrow _ IH]; [done|].
  cbn [cmap]. rewrite (convert_complete _ Hrow), IH. done.
Qed.

Lemma convertRows_incomplete rows :
  Exists (λ row, ¬ complete row) rows → ∃ e, convertRows (Some rows) = Throw e.
Proof.
  unfold convertRows. cbn [from_option Datatypes.id].
  induction 1 as [row rows Hrow|row rows _ [e IH]]; cbn [cmap].
  - destruct (convert_incomplete _ Hrow) as [e ->]. by exists e.
  - rewrite IH. destruct (convertFromDatabase (Some row)); by eexists.
Qed.

(** X11: when the remote answers the listing, [getAllPasswords] returns
    one record per row, in the order of the rows, if every row has all
    required columns, and fails as a whole, returning no record, as soon
    as one row lacks a column. *)
Theorem getAll_one_record_per_row w data count w' :
  remote _ QSelectAll w = (Success data count, w')
  → (Forall complete (default [] data)
     → result (getAllPasswords w) = Normal (entryOfRow <$> default [] data))
    ∧ (Exists (λ row, ¬ complete row) (default [] data)
       → ∃ e, result (getAllPasswords w) = Throw e).
Proof.
  intros H. rewrite getAllPasswords_eq, H. simpl.
  assert (convertRows data = convertRows (Some (default [] data))) as ->
    by by destruct data.
  split.
  - intros Hall. by rewrite (convertRows_complete _ Hall).
  - intros Hex. destruct (convertRows_incomplete _ Hex) as [e ->]. simpl. eauto.
Qed.

End ServiceBatches.

Section StatsFurther.

Context {World Date : Type}.
Variable remote : ∀ T, query T → World → response T * World.
Variable ERROR_MESSAGES : gmap string jsval.
Variable newDate : World → Date.
Variable minusDays : Date → nat → Date.
Variable toISOString : Date → jsstring.

Local Abbreviation getPasswordStats :=
  (getPasswordStats remote ERROR_MESSAGES newDate minusDays toISOString).

(** X12: when the query that counts every row fails, [getPasswordStats]
    returns zero for both counts without throwing, and the query for the
    recent count is not issued. *)
Theorem stats_zero_when_total_fails w e w1 :
  remote _ QCount w = (Failure e, w1)
  → getPasswordStats w
    = Outcome (Normal {| total := 0; recentCount := 0 |}) w1 [Call QCount].
Proof. intros H. by rewrite getPasswordStats_eq, H. Qed.

End StatsFurther.

(** * The [usePasswords] hook *)

Example text_decodes :
  text "Lỗi" = [76; 7895; 105]%N ∧ text "xóa" = [120; 243; 97]%N.
Proof. by vm_compute. Qed.

Section HookProperties.

Context {Db Entry Input : Type}.
Variable entryId : Entry → jsstring.
Variable db_getAllPasswords : Db → completion (list Entry) * Db.
Variable db_searchPasswords : jsstring → Db → completion (list Entry) * Db.
Variable db_addPassword : Input → Db → completion Entry * Db.
Variable db_updatePassword : jsstring → Input → Db → completion (option Entry) * Db.
Variable db_deletePassword : jsstring → Db → completion bool * Db.

Local Abbreviation hook := (@UsePasswords.hook Db Entry Input).
Local Abbreviation fetchPasswords := (UsePasswords.fetchPasswords db_getAllPasswords).
Local Abbreviation searchPasswords :=
  (UsePasswords.searchPasswords db_getAllPasswords db_searchPasswords).
Local Abbreviation addPassword := (UsePasswords.addPassword db_addPassword).
Local Abbreviation updatePassword :=
  (UsePasswords.updatePassword entryId db_updatePassword).
Local Abbreviation deletePassword :=
  (UsePasswords.deletePassword entryId db_deletePassword).

Ltac unfold_hook :=
  unfold UsePasswords.fetchPasswords, UsePasswords.searchPasswords,
    UsePasswords.addPassword, UsePasswords.updatePassword,
    UsePasswords.deletePassword, UsePasswords.awaitDb.

(** X13: when the store adds the entry, the hook returns it and puts it
    in front of the list it holds, which grows by one and keeps its other
    entries in place. *)
Theorem hook_add_prepends entry (h : hook) newEntry d :
  db_addPassword entry (UsePasswords.db h) = (Normal newEntry, d)
  → (addPassword entry h).1 = Normal newEntry
    ∧ UsePasswords.passwords (addPassword entry h).2
      = newEntry :: UsePasswords.passwords h
    ∧ UsePasswords.statsOf (addPassword entry h).2
      = {| UsePasswords.total := S (length (UsePasswords.passwords h));
           UsePasswords.hasPasswords := true |}
    ∧ UsePasswords.error (addPassword entry h).2 = UsePasswords.error h.
Proof. intros H. unfold_hook. by rewrite H. Qed.

(** X14: when the store refuses an add, an update or a delete, the hook
    throws the same error on, leaves its list as it was, records the
    message of the operation as its error and shows it in one destructive
    toast. *)
Theorem hook_failure_keeps_list (h : hook) err d :
  (∀ entry, db_addPassword entry (UsePasswords.db h) = (Throw err, d)
     → (addPassword entry h).1 = Throw err
       ∧ UsePasswords.passwords (addPassword entry h).2 = UsePasswords.passwords h
       ∧ UsePasswords.error (addPassword entry h).2
         = Some (text "Không thể thêm mật khẩu mới")
       ∧ UsePasswords.toasts (addPassword entry h).2
         = UsePasswords.toasts h
           ++ [UsePasswords.Notice (text "Lỗi")
                 (text "Không thể thêm mật khẩu mới") true])
  ∧ (∀ rowId entry,
       db_updatePassword rowId entry (UsePasswords.db h) = (Throw err, d)
     → (updatePassword rowId entry h).1 = Throw err
       ∧ UsePasswords.passwords (updatePassword rowId entry h).2
         = UsePasswords.passwords h
       ∧ UsePasswords.error (updatePassword rowId entry h).2
         = Some (text "Không thể cập nhật mật khẩu")
       ∧ UsePasswords.toasts (updatePassword rowId entry h).2
         = UsePasswords.toasts h
           ++ [UsePasswords.Notice (text "Lỗi")
                 (text "Không thể cập nhật mật khẩu") true])
  ∧ (∀ rowId, db_deletePassword rowId (UsePasswords.db h) = (Throw err, d)
     → (deletePassword rowId h).1 = Throw err
       ∧ UsePasswords.passwords (deletePassword rowId h).2 = UsePasswords.passwords h
       ∧ UsePasswords.error (deletePassword rowId h).2
         = Some (text "Không thể xóa mật khẩu")
       ∧ UsePasswords.toasts (deletePassword rowId h).2
         = UsePasswords.toasts h
           ++ [UsePasswords.Notice (text "Lỗi")
                 (text "Không thể xóa mật khẩu") true]).
Proof.
  split; [|split].
  - intros entry H. unfold_hook. by rewrite H.
  - intros rowId entry H. unfold_hook. by rewrite H.
  - intros rowId H. unfold_hook. by rewrite H.
Qed.

(** X15: fetching never throws and always ends with [loading] false: a
    listing that succeeds replaces the list and clears the error, and one
    that fails keeps the list and records the message of the fetch. *)
Theorem hook_fetch_ends_loading (h : hook) r d :
  db_getAllPasswords (UsePasswords.db h) = (r, d)
  → UsePasswords.loading (fetchPasswords h) = false
    ∧ UsePasswords.calls (fetchPasswords h)
      = UsePasswords.calls h ++ [UsePasswords.GetAll]
    ∧ match r with
      | Normal data =>
          UsePasswords.passwords (fetchPasswords h) = data
          ∧ UsePasswords.error (fetchPasswords h) = None
          ∧ UsePasswords.toasts (fetchPasswords h) = UsePasswords.toasts h
      | Throw _ =>
          UsePasswords.passwords (fetchPasswords h) = UsePasswords.passwords h
          ∧ UsePasswords.error (fetchPasswords h)
            = Some (text "Không thể lấy danh sách mật khẩu")
      end.
Proof. intros H. unfold_hook. simpl. rewrite H. by destruct r. Qed.

(** X16: a search with a query that is empty or blank asks the store for
    the whole list and never calls its search; any other query is handed
    to the search of the store as typed, white space around it
    included. *)
Theorem hook_search_blank_lists_all query (h : hook) :
  UsePasswords.calls (searchPasswords query h)
  = UsePasswords.calls h
    ++ [if blank query then UsePasswords.GetAll else UsePasswords.Search query].
Proof.
  unfold_hook. simpl. rewrite nonempty_trim.
  destruct (blank query); simpl.
  - by destruct (db_getAllPasswords _) as [[] ?].
  - by destruct (db_searchPasswords _ _) as [[] ?].
Qed.

(** X17: when the store updates the entry, the hook replaces every entry
    of that id in its list by the entry returned and touches no other
    entry: the list keeps its length and, when the entry returned has the
    id asked for, its sequence of ids. *)
Theorem hook_update_replaces_in_place rowId entry (h : hook) updatedEntry d :
  db_updatePassword rowId entry (UsePasswords.db h) = (Normal (Some updatedEntry), d)
  → (updatePassword rowId entry h).1 = Normal (Some updatedEntry)
    ∧ length (UsePasswords.passwords (updatePassword rowId entry h).2)
      = length (UsePasswords.passwords h)
    ∧ (∀ i item, UsePasswords.passwords h !! i = Some item
         → UsePasswords.passwords (updatePassword rowId entry h).2 !! i
           = Some (if decide (entryId item = rowId) then updatedEntry else item))
    ∧ (entryId updatedEntry = rowId
       → entryId <$> UsePasswords.passwords (updatePassword rowId entry h).2
         = entryId <$> UsePasswords.passwords h).
Proof.
  intros H. unfold_hook. rewrite H. simpl.
  split; [done|]. split; [by rewrite length_fmap|]. split.
  - intros i item Hi. by rewrite list_lookup_fmap, Hi.
  - intros Hid. rewrite <- list_fmap_compose. apply list_fmap_ext.
    intros i item _. simpl. by case_decide; [congruence|].
Qed.

(** When the store knows no entry of the id, the hook changes nothing and
    shows nothing. *)
Lemma hook_update_not_found rowId entry (h : hook) d :
  db_updatePassword rowId entry (UsePasswords.db h) = (Normal None, d)
  → (updatePassword rowId entry h).1 = Normal None
    ∧ UsePasswords.passwords (updatePassword rowId entry h).2 = UsePasswords.passwords h
    ∧ UsePasswords.toasts (updatePassword rowId entry h).2 = UsePasswords.toasts h.
Proof. intros H. unfold_hook. by rewrite H. Qed.

(** X18: when the store deletes the entry, no entry of that id is left in
    the list of the hook and every other entry stays, in its order; when
    the store reports that nothing was deleted, the list and the toasts
    stay as they were. *)
Theorem hook_delete_removes_id rowId (h : hook) deleted d :
  db_deletePassword rowId (UsePasswords.db h) = (Normal deleted, d)
  → (deletePassword rowId h).1 = Normal deleted
    ∧ if deleted then
        (∀ item, item ∈ UsePasswords.passwords (deletePassword rowId h).2
           ↔ item ∈ UsePasswords.passwords h ∧ entryId item ≠ rowId)
        ∧ UsePasswords.passwords (deletePassword rowId h).2
            `sublist_of` UsePasswords.passwords h
      else
        UsePasswords.passwords (deletePassword rowId h).2 = UsePasswords.passwords h
        ∧ UsePasswords.toasts (deletePassword rowId h).2 = UsePasswords.toasts h.
Proof.
  intros H. unfold_hook. rewrite H. destruct deleted; simpl; [|done].
  split; [done|]. split.
  - intros item. rewrite list_elem_of_In, filter_In, <- list_elem_of_In.
    rewrite negb_true_iff, bool_decide_eq_false. done.
  - induction (UsePasswords.passwords h) as [|item l IH]; simpl; [done|].
    destruct (negb _); by constructor.
Qed.

(** X19: adding an entry whose id no entry of the list has, then deleting
    that id, gives back the list as it was before the two. *)
Theorem hook_add_then_delete_restores entry (h : hook) newEntry d d' :
  Forall (λ item, entryId item ≠ entryId newEntry) (UsePasswords.passwords h)
  → db_addPassword entry (UsePasswords.db h) = (Normal newEntry, d)
  → db_deletePassword (entryId newEntry) d = (Normal true, d')
  → UsePasswords.passwords
      (deletePassword (entryId newEntry) (addPassword entry h).2).2
    = UsePasswords.passwords h.
Proof.
  intros Hfresh Hadd Hdel. unfold_hook. rewrite Hadd. simpl. rewrite Hdel. simpl.
  rewrite bool_decide_true by done. simpl.
  induction Hfresh as [|item l Hitem _ IH]; simpl; [done|].
  rewrite bool_decide_false by done. simpl. by rewrite IH.
Qed.

End HookProperties.

(** * The debug component *)

Section DebugProperties.

Context {World : Type}.
Variable remote : ∀ T, NetlifyDebug.dquery T → World → response T * World.
Variable dateNow : World → Z.
Variable isoNow : World → jsstring.
Variable VITE_SUPABASE_URL : jsval.
Variable VITE_SUPABASE_ANON_KEY : jsval.
Variable MODE : jsstring.
Variable DEV : bool.
Variable PROD : bool.

Local Abbreviation testEntry := (NetlifyDebug.testEntry dateNow).
Local Abbreviation testDatabaseOperations :=
  (NetlifyDebug.testDatabaseOperations remote dateNow).
Local Abbreviation runDebugTest :=
  (NetlifyDebug.runDebugTest remote dateNow isoNow
     VITE_SUPABASE_URL VITE_SUPABASE_ANON_KEY MODE DEV PROD).
Local Abbreviation checkEnvironmentVariables :=
  (NetlifyDebug.checkEnvironmentVariables
     VITE_SUPABASE_URL VITE_SUPABASE_ANON_KEY MODE DEV PROD).

(** X20: the database test always issues the insert of the test entry and
    then the select, whatever the insert answered, and it issues the
    cleanup delete exactly when the insert returned a row with an id, for
    that id and after the select. *)
Theorem debug_cleanup_follows_insert w :
  (testDatabaseOperations w).2
  = [NetlifyDebug.DCall (NetlifyDebug.DInsertSingle [testEntry w]);
     NetlifyDebug.DCall (NetlifyDebug.DSelectLimit 5)]
    ++ (let inserted :=
          NetlifyDebug.insertedId
            (remote _ (NetlifyDebug.DInsertSingle [testEntry w]) w).1 in
        if truthy inserted
        then [NetlifyDebug.DCall (NetlifyDebug.DDelete inserted)] else [])
  ∧ (is_Some (NetlifyDebug.cleanup (testDatabaseOperations w).1.1)
     ↔ truthy (NetlifyDebug.insertedId
                 (remote _ (NetlifyDebug.DInsertSingle [testEntry w]) w).1) = true)
  ∧ is_Some (NetlifyDebug.insert (testDatabaseOperations w).1.1)
  ∧ is_Some (NetlifyDebug.select (testDatabaseOperations w).1.1).
Proof.
  unfold NetlifyDebug.testDatabaseOperations.
  destruct (remote _ (NetlifyDebug.DInsertSingle _) w) as [r1 w1]. simpl.
  destruct (remote _ (NetlifyDebug.DSelectLimit 5) w1) as [r2 w2].
  destruct (truthy (NetlifyDebug.insertedId r1)) eqn:Hid.
  - destruct (remote _ (NetlifyDebug.DDelete _) w2) as [r3 w3]. simpl.
    repeat split; eauto.
  - simpl. repeat split; eauto; try by intros [? ?]. done.
Qed.

(** X21: when the connection probe fails, the debug run issues no other
    query and reports no database test; when it succeeds, the database
    test runs next, on the world the probe left; either way the run ends
    with a report and with [loading] false. *)
Theorem debug_database_tests_need_connection w :
  (NetlifyDebug.succeeded (remote _ NetlifyDebug.DProbe w).1 = false
   → (runDebugTest w).2 = [NetlifyDebug.DCall NetlifyDebug.DProbe]
     ∧ (runDebugTest w).1.2 = (remote _ NetlifyDebug.DProbe w).2
     ∧ ∃ report, NetlifyDebug.debugInfo (runDebugTest w).1.1 = Some report
         ∧ NetlifyDebug.databaseTest report
           = {| NetlifyDebug.insert := None; NetlifyDebug.select := None;
                NetlifyDebug.cleanup := None |})
  ∧ (NetlifyDebug.succeeded (remote _ NetlifyDebug.DProbe w).1 = true
     → (runDebugTest w).2
       = NetlifyDebug.DCall NetlifyDebug.DProbe
         :: (testDatabaseOperations (remote _ NetlifyDebug.DProbe w).2).2
       ∧ ∃ report, NetlifyDebug.debugInfo (runDebugTest w).1.1 = Some report
           ∧ NetlifyDebug.databaseTest report
             = (testDatabaseOperations (remote _ NetlifyDebug.DProbe w).2).1.1)
  ∧ NetlifyDebug.loading (runDebugTest w).1.1 = false.
Proof.
  unfold NetlifyDebug.runDebugTest, NetlifyDebug.testSupabaseConnection.
  destruct (remote _ NetlifyDebug.DProbe w) as [r w1]. simpl.
  destruct (NetlifyDebug.succeeded r); simpl.
  - destruct (NetlifyDebug.testDatabaseOperations remote dateNow w1)
      as [[database w2] asked]. simpl.
    split; [done|]. split; [|done]. intros _. split; [done|]. by eexists.
  - split; [|done]. intros _. split; [done|]. split; [done|]. by eexists.
Qed.

(** X22: in the environment report the URL is never empty ("NOT_SET"
    stands in for a missing one), and the key is reported present exactly
    when its reported length is not zero. *)
Theorem debug_environment_consistent :
  NetlifyDebug.supabaseUrl checkEnvironmentVariables ≠ []
  ∧ (NetlifyDebug.hasAnonKey checkEnvironmentVariables = true
     ↔ 0 < NetlifyDebug.anonKeyLength checkEnvironmentVariables).
Proof.
  unfold NetlifyDebug.checkEnvironmentVariables. simpl. split.
  - destruct VITE_SUPABASE_URL as [| |[|c u]]; done.
  - destruct VITE_SUPABASE_ANON_KEY as [| |[|c k]]; simpl; split; (done || lia).
Qed.

End DebugProperties.

(** * Closed instances of the further properties *)

Lemma deletePassword_guards_blank_id_witness :
  trace (deletePassword (listing []) Sample.messages (lit "r1") ())
  = [Call (QDelete (lit "r1"))]
  ∧ after (deletePassword (listing []) Sample.messages (lit "r1") ()) = ()
  ∧ (result (deletePassword (listing []) Sample.messages (lit "r1") ()) = Normal ()
     ↔ ∃ data count,
         (listing [] _ (QDelete (lit "r1")) ()).1 = Success data count).
Proof.
  apply (deletePassword_guards_blank_id (listing []) Sample.messages (lit "r1") ()).
  reflexivity.
Defined.

Lemma failures_carry_operation_prefix_witness :
  hasPrefix Sample.messages "ADD_FAILED"
    (lit "Could not add password: Could not add password: Failed to fetch").
Proof.
  apply (failures_carry_operation_prefix (@offline ()) Sample.messages ())
    with (c := Sample.good).
  reflexivity.
Defined.

Lemma remote_failure_prefixed_twice_witness :
  result (getAllPasswords (@offline ()) Sample.messages ())
  = Throw (lit "Operation failed: Operation failed: Failed to fetch").
Proof.
  apply (remote_failure_prefixed_twice (@offline ()) Sample.messages
           () (lit "Failed to fetch") ()).
  reflexivity.
Defined.

Lemma batchAdd_names_first_invalid_witness :
  batchAddPasswords (@offline ()) Sample.messages
    ([Sample.good; Sample.good] ++ Sample.blankService :: [Sample.good]) ()
  = Outcome
      (Throw (lit "Could not add password: Validation failed for password 3: Error: Service name must be between 1-100 characters"))
      () [].
Proof.
  apply (batchAdd_names_first_invalid (@offline ()) Sample.messages
           [Sample.good; Sample.good] Sample.blankService [Sample.good]
           (lit "Service name must be between 1-100 characters") ()).
  - repeat constructor.
  - reflexivity.
Defined.

Lemma getAll_one_record_per_row_witness :
  (Forall complete [Sample.email]
   → result (getAllPasswords (listing [Sample.email]) Sample.messages ())
     = Normal [entryOfRow Sample.email])
  ∧ (Exists (λ row, ¬ complete row) [Sample.email]
     → ∃ e, result (getAllPasswords (listing [Sample.email]) Sample.messages ())
            = Throw e).
Proof.
  apply (getAll_one_record_per_row (listing [Sample.email]) Sample.messages
           () (Some [Sample.email]) None ()).
  reflexivity.
Defined.

Lemma stats_zero_when_total_fails_witness :
  getPasswordStats (@offline hosted) Sample.messages Sample.today Sample.daysBefore
    Sample.stamp Sample.world
  = Outcome (Normal {| total := 0; recentCount := 0 |}) Sample.world [Call QCount].
Proof.
  apply (stats_zero_when_total_fails (@offline hosted) Sample.messages Sample.today
           Sample.daysBefore Sample.stamp Sample.world (lit "Failed to fetch")
           Sample.world).
  reflexivity.
Defined.

Lemma hook_add_prepends_witness :
  (UsePasswords.addPassword Fixture.store_add (lit "c") Fixture.held).1
  = Normal (lit "c")
  ∧ UsePasswords.passwords
      (UsePasswords.addPassword Fixture.store_add (lit "c") Fixture.held).2
    = [lit "c"; lit "a"; lit "b"]
  ∧ UsePasswords.statsOf
      (UsePasswords.addPassword Fixture.store_add (lit "c") Fixture.held).2
    = {| UsePasswords.total := 3; UsePasswords.hasPasswords := true |}
  ∧ UsePasswords.error
      (UsePasswords.addPassword Fixture.store_add (lit "c") Fixture.held).2
    = None.
Proof.
  apply (hook_add_prepends Fixture.store_add (lit "c") Fixture.held (lit "c")
           [lit "c"; lit "a"; lit "b"]).
  reflexivity.
Defined.

Lemma hook_failure_keeps_list_witness :
  (UsePasswords.deletePassword Datatypes.id (λ _, Fixture.full) (lit "a")
     Fixture.held).1
  = Throw (lit "QuotaExceededError")
  ∧ UsePasswords.passwords
      (UsePasswords.deletePassword Datatypes.id (λ _, Fixture.full) (lit "a")
         Fixture.held).2
    = [lit "a"; lit "b"]
  ∧ UsePasswords.error
      (UsePasswords.deletePassword Datatypes.id (λ _, Fixture.full) (lit "a")
         Fixture.held).2
    = Some (text "Không thể xóa mật khẩu")
  ∧ UsePasswords.toasts
      (UsePasswords.deletePassword Datatypes.id (λ _, Fixture.full) (lit "a")
         Fixture.held).2
    = [UsePasswords.Notice (text "Lỗi") (text "Không thể xóa mật khẩu") true].
Proof.
  apply (hook_failure_keeps_list Datatypes.id (λ _, Fixture.full)
           (λ _ _, Fixture.full) (λ _, Fixture.full) Fixture.held
           (lit "QuotaExceededError") [lit "a"; lit "b"]).
  reflexivity.
Defined.

Lemma hook_fetch_ends_loading_witness :
  UsePasswords.loading (UsePasswords.fetchPasswords Fixture.full Fixture.held) = false
  ∧ UsePasswords.calls (UsePasswords.fetchPasswords Fixture.full Fixture.held)
    = [UsePasswords.GetAll]
  ∧ UsePasswords.passwords (UsePasswords.fetchPasswords Fixture.full Fixture.held)
    = [lit "a"; lit "b"]
  ∧ UsePasswords.error (UsePasswords.fetchPasswords Fixture.full Fixture.held)
    = Some (text "Không thể lấy danh sách mật khẩu").
Proof.
  apply (hook_fetch_ends_loading Fixture.full Fixture.held
           (Throw (lit "QuotaExceededError")) [lit "a"; lit "b"]).
  reflexivity.
Defined.

Lemma hook_update_replaces_in_place_witness :
  (UsePasswords.updatePassword Datatypes.id Fixture.store_update (lit "a") (lit "x")
     Fixture.held).1
  = Normal (Some (lit "a"))
  ∧ length (UsePasswords.passwords
              (UsePasswords.updatePassword Datatypes.id Fixture.store_update
                 (lit "a") (lit "x") Fixture.held).2)
    = 2
  ∧ (∀ i item, [lit "a"; lit "b"] !! i = Some item
       → UsePasswords.passwords
           (UsePasswords.updatePassword Datatypes.id Fixture.store_update
              (lit "a") (lit "x") Fixture.held).2 !! i
         = Some (if decide (item = lit "a") then lit "a" else item))
  ∧ (lit "a" = lit "a"
     → Datatypes.id <$> UsePasswords.passwords
         (UsePasswords.updatePassword Datatypes.id Fixture.store_update
            (lit "a") (lit "x") Fixture.held).2
       = Datatypes.id <$> [lit "a"; lit "b"]).
Proof.
  apply (hook_update_replaces_in_place Datatypes.id Fixture.store_update
           (lit "a") (lit "x") Fixture.held (lit "a") [lit "a"; lit "b"]).
  reflexivity.
Defined.

Lemma hook_delete_removes_id_witness :
  (UsePasswords.deletePassword Datatypes.id Fixture.store_delete (lit "a")
     Fixture.held).1
  = Normal true
  ∧ (∀ item,
       item ∈ UsePasswords.passwords
                (UsePasswords.deletePassword Datatypes.id Fixture.store_delete
                   (lit "a") Fixture.held).2
       ↔ item ∈ [lit "a"; lit "b"] ∧ item ≠ lit "a")
    ∧ UsePasswords.passwords
        (UsePasswords.deletePassword Datatypes.id Fixture.store_delete
           (lit "a") Fixture.held).2
        `sublist_of` [lit "a"; lit "b"].
Proof.
  apply (hook_delete_removes_id Datatypes.id Fixture.store_delete (lit "a")
           Fixture.held true [lit "b"]).
  reflexivity.
Defined.

Lemma hook_add_then_delete_restores_witness :
  UsePasswords.passwords
    (UsePasswords.deletePassword Datatypes.id Fixture.store_delete (lit "c")
       (UsePasswords.addPassword Fixture.store_add (lit "c") Fixture.held).2).2
  = [lit "a"; lit "b"].
Proof.
  apply (hook_add_then_delete_restores Datatypes.id Fixture.store_add
           Fixture.store_delete (lit "c") Fixture.held (lit "c")
           [lit "c"; lit "a"; lit "b"] [lit "a"; lit "b"]).
  - repeat constructor; discriminate.
  - reflexivity.
  - reflexivity.
Defined.

Lemma debug_database_tests_need_connection_witness :
  (NetlifyDebug.runDebugTest Fixture.down (λ _, 0%Z) (λ _, lit "2026-01-06")
     JUndefined JUndefined (lit "production") false true ()).2
  = [NetlifyDebug.DCall NetlifyDebug.DProbe].
Proof.
  apply (debug_database_tests_need_connection Fixture.down (λ _, 0%Z)
           (λ _, lit "2026-01-06") JUndefined JUndefined (lit "production")
           false true ()).
  reflexivity.
Defined.

(** * Where empty fields and wildcards slip through *)

Lemma replaceClass_elem cls r (s : jsstring) c :
  c ∈ replaceClass cls r s → c ∈ r ∨ (c ∈ s ∧ cls c = false).
Proof.
  unfold replaceClass. induction s as [|d s IH]; simpl.
  - intros H. by apply elem_of_nil in H.
  - intros [H|H]%elem_of_app.
    + destruct (cls d) eqn:Hd; [by left|].
      apply list_elem_of_singleton in H as ->. right. split; [by left|done].
    + destruct (IH H) as [?|[? ?]]; [by left|]. right. split; [by right|done].
Qed.

(** No [%] and no [_] is left in a sanitized query. *)
Lemma sanitize_no_wildcard (query : jsstring) c :
  c ∈ sanitizeSearchQuery query → isWildcard c = false.
Proof.
  unfold sanitizeSearchQuery, substring0. intros H.
  apply subseteq_take in H.
  apply replaceClass_elem in H as [H|[H _]]; [by apply elem_of_nil in H|].
  apply replaceClass_elem in H as [H|[_ H]]; [|done].
  unfold wildcardReplacement in H.
  repeat (apply elem_of_cons in H as [->|H]; [done|]).
  by apply elem_of_nil in H.
Qed.

(** C2, where the code departs from the claim: the first [replace] of
    [sanitizeSearchQuery], commented "Escape SQL wildcards", does not put
    a backslash in front of [%] and [_] and keep them; it puts a fixed
    text in their place, so that the query [50%] becomes [50] followed by
    that text where escaping gives [50\%], and no sanitized query holds a
    [%] or a [_] that the search could match literally. *)
Theorem sanitize_wildcard_not_escaped :
  sanitizeSearchQuery (lit "50%") = lit "50\04159cb3-9186-4414-9c28-af252a86395a"
  ∧ sanitizeAsWorded (lit "50%") = lit "50\%"
  ∧ (∀ query c, c ∈ sanitizeSearchQuery query → isWildcard c = false).
Proof.
  split; [by vm_compute|]. split; [by vm_compute|]. apply sanitize_no_wildcard.
Qed.

Section ServiceSlips.

Context {World : Type}.
Variable remote : ∀ T, query T → World → response T * World.
Variable ERROR_MESSAGES : gmap string jsval.

Local Abbreviation batchAddPasswords := (batchAddPasswords remote ERROR_MESSAGES).

(** C3, where the code departs from the claim: a batch of five valid
    entries and one whose service is the empty string passes the
    validation of every entry, because [validatePasswordData] lets the
    empty string through, and [batchAddPasswords] sends the insert of all
    six entries to the remote instead of rejecting the batch. *)
Theorem batchAdd_empty_service_is_sent w :
  Exists (λ pwd, length (c_service pwd) = 0) Fixture.emptyBatch
  ∧ validateEach 0 Fixture.emptyBatch = Normal ()
  ∧ trace (batchAddPasswords Fixture.emptyBatch w)
    = [Call (QInsertMany (obj_of_create <$> Fixture.emptyBatch))].
Proof.
  assert (validateEach 0 Fixture.emptyBatch = Normal ()) as Hv by by vm_compute.
  split; [unfold Fixture.emptyBatch; by repeat first [left; done | right]|].
  split; [done|].
  rewrite batchAddPasswords_eq. rewrite Hv.
  unfold Fixture.emptyBatch at 1. cbv zeta. by destruct (remote _ _ w).
Qed.

End ServiceSlips.
